(** * home-plants: the serial humidity logger ([read_humidity.py])

    A shallow embedding of the stream-to-archive pipeline of [main]:
    frame synchronisation on the serial port, decoding of the 28-byte wire
    records, the hourly rotation of the zip archives and the handling of
    exceptions, followed by the properties of the pipeline.

    Conventions of the model.
    - The serial port is the list of bytes that will ever arrive on it,
      together with what a read does once they are used up.
    - [datetime.utcnow()] reads an oracle: the n-th call returns [clock n],
      a POSIX time in microseconds.
    - A pending [KeyboardInterrupt] is an oracle on the operations of the
      pipeline: [sigint n] tells whether the n-th operation is interrupted.
    - The file system maps a path to the archive stored there; errors of
      the file system itself (permissions, full disk) are not modelled. *)

From Stdlib Require Import ZArith Lia List Bool String Ascii.
From Stdlib.Strings Require Import Byte.
From stdpp Require Import base option list strings gmap fin_maps.

Local Open Scope string_scope.
Local Open Scope list_scope.
Local Open Scope Z_scope.

(** ** Exceptions *)

Inductive exn : Set :=
| KeyboardInterrupt
| SerialException
| StructError
| ValidationError
| ValueError
| JSONDecodeError.

Inductive result (A : Type) : Type :=
| Ok (a : A)
| Raise (e : exn).
Arguments Ok {A} a.
Arguments Raise {A} e.

#[global] Instance result_ret : MRet result := fun A a => Ok a.

#[global] Instance result_bind : MBind result := fun A B k r =>
  match r with
  | Ok a => k a
  | Raise e => Raise e
  end.

(** ** Naive UTC datetimes

    The date is kept as its proleptic Gregorian ordinal
    ([date.toordinal()]); year, month and day are computed from it when a
    datetime is formatted.  Python's range check (years 1 to 9999) is not
    modelled. *)

Module Datetime.

Record datetime : Set := mk {
  ordinal : Z;
  hour : Z;
  minute : Z;
  second : Z;
  microsecond : Z
}.

Definition us_per_second : Z := 1000000.
Definition us_per_minute : Z := 60 * us_per_second.
Definition us_per_hour : Z := 60 * us_per_minute.
Definition us_per_day : Z := 24 * us_per_hour.

(** [date(1970, 1, 1).toordinal()] *)
Definition epoch_ordinal : Z := 719163.

Definition valid (d : datetime) : Prop :=
  0 <= hour d < 24 /\ 0 <= minute d < 60 /\ 0 <= second d < 60 /\
  0 <= microsecond d < us_per_second.

(** Microseconds since the start of ordinal 0: the number the arithmetic
    of [datetime] goes through. *)
Definition to_us (d : datetime) : Z :=
  (((ordinal d * 24 + hour d) * 60 + minute d) * 60 + second d) * us_per_second
  + microsecond d.

Definition of_us (n : Z) : datetime :=
  let days := n / us_per_day in
  let r := n mod us_per_day in
  {| ordinal := days;
     hour := r / us_per_hour;
     minute := (r mod us_per_hour) / us_per_minute;
     second := (r mod us_per_minute) / us_per_second;
     microsecond := r mod us_per_second |}.

(** [datetime.utcfromtimestamp]: a POSIX time in microseconds. *)
Definition of_timestamp (t : Z) : datetime :=
  of_us (t + epoch_ordinal * us_per_day).

(** [d.replace(minute=0, second=0, microsecond=0)] *)
Definition replace_hour_start (d : datetime) : datetime :=
  {| ordinal := ordinal d;
     hour := hour d;
     minute := 0;
     second := 0;
     microsecond := 0 |}.

(** [d + timedelta(microseconds=delta)] *)
Definition add (d : datetime) (delta : Z) : datetime :=
  of_us (to_us d + delta).

(** [timedelta(hours=h)] in microseconds *)
Definition hours (h : Z) : Z := h * us_per_hour.

(** [a < b]: the fields are compared in order. *)
Definition ltb (a b : datetime) : bool :=
  if ordinal a =? ordinal b then
    if hour a =? hour b then
      if minute a =? minute b then
        if second a =? second b then microsecond a <? microsecond b
        else second a <? second b
      else minute a <? minute b
    else hour a <? hour b
  else ordinal a <? ordinal b.

(** *** Formatting *)

Definition days_before_month (m : Z) : Z :=
  match m with
  | 1 => 0 | 2 => 31 | 3 => 59 | 4 => 90 | 5 => 120 | 6 => 151
  | 7 => 181 | 8 => 212 | 9 => 243 | 10 => 273 | 11 => 304 | 12 => 334
  | _ => 0
  end.

Definition days_in_month (m : Z) : Z :=
  match m with
  | 2 => 28
  | 4 | 6 | 9 | 11 => 30
  | _ => 31
  end.

Definition b2z (b : bool) : Z := if b then 1 else 0.

(** [_ord2ymd] of the [datetime] module. *)
Definition ord2ymd (n0 : Z) : Z * Z * Z :=
  let n := n0 - 1 in
  let n400 := n / 146097 in
  let n := n mod 146097 in
  let year := n400 * 400 + 1 in
  let n100 := n / 36524 in
  let n := n mod 36524 in
  let n4 := n / 1461 in
  let n := n mod 1461 in
  let n1 := n / 365 in
  let n := n mod 365 in
  let year := year + n100 * 100 + n4 * 4 + n1 in
  if (n1 =? 4) || (n100 =? 4) then (year - 1, 12, 31)
  else
    let leapyear := (n1 =? 3) && (negb (n4 =? 24) || (n100 =? 3)) in
    let month := Z.shiftr (n + 50) 5 in
    let preceding := days_before_month month + b2z ((2 <? month) && leapyear) in
    if n <? preceding then
      let month := month - 1 in
      let preceding :=
        preceding - (days_in_month month + b2z ((month =? 2) && leapyear)) in
      (year, month, n - preceding + 1)
    else (year, month, n - preceding + 1).

Definition digit (n : Z) : ascii :=
  ascii_of_N (48 + Z.to_N (n mod 10)).

Definition pad2 (n : Z) : string :=
  String (digit (n / 10)) (String (digit n) EmptyString).

Definition pad4 (n : Z) : string :=
  String (digit (n / 1000)) (String (digit (n / 100)) (pad2 n)).

(** [f"{d:%Y-%m-%d/%H-%M-%S}"], for the years 1000 to 9999. *)
Definition strftime_path (d : datetime) : string :=
  let '(y, m, dd) := ord2ymd (ordinal d) in
  pad4 y +:+ "-" +:+ pad2 m +:+ "-" +:+ pad2 dd +:+ "/" +:+
  pad2 (hour d) +:+ "-" +:+ pad2 (minute d) +:+ "-" +:+ pad2 (second d).

End Datetime.

Abbreviation datetime := Datetime.datetime.

(** ** The serial port *)

(** What a read does when fewer bytes than asked for will ever arrive:
    [Serial(port, baudrate)] has no timeout and blocks; a disconnected
    device raises; a byte source with a timeout or an end of file returns
    what it has. *)
Inductive exhausted : Set :=
| Blocks
| Disconnects
| ReturnsShort.

Inductive read_result : Type :=
| ReadOk (data rest : list byte)
| ReadBlocked
| ReadError.

(** [port.read(n)] on the pending bytes [buf]. *)
Definition port_read (x : exhausted) (n : nat) (buf : list byte) : read_result :=
  if (n <=? length buf)%nat then ReadOk (take n buf) (drop n buf)
  else match x with
       | Blocks => ReadBlocked
       | Disconnects => ReadError
       | ReturnsShort => ReadOk buf []
       end.

Fixpoint bytes_eqb (a b : list byte) : bool :=
  match a, b with
  | [], [] => true
  | x :: a, y :: b => Byte.eqb x y && bytes_eqb a b
  | _, _ => false
  end.

(** [line[-n:]] for [n > 0] *)
Definition py_suffix (n : nat) (line : list byte) : list byte :=
  drop (length line - n) line.

(** The loop of [Serial.read_until(expected)]: one byte is read at a time
    and appended to [line] until [line] ends with [expected]. *)
Fixpoint read_until_loop (x : exhausted) (expected line buf : list byte)
  : read_result :=
  match buf with
  | [] =>
      match x with
      | Blocks => ReadBlocked
      | Disconnects => ReadError
      | ReturnsShort => ReadOk line []
      end
  | c :: rest =>
      let line := line ++ [c] in
      if bytes_eqb (py_suffix (length expected) line) expected
      then ReadOk line rest
      else read_until_loop x expected line rest
  end.

Definition read_until (x : exhausted) (expected buf : list byte) : read_result :=
  read_until_loop x expected [] buf.

(** [b'\x9a\x16\x52\x76\xa8\x1b'] *)
Definition sync_marker : list byte := [x9a; x16; x52; x76; xa8; x1b].

Definition preamble_size : nat := 22.
Definition record_size : nat := 28.

(** ** [struct.unpack] in native mode *)

Inductive byteorder : Set :=
| LittleEndian
| BigEndian.

Record float32 : Set := F32 { f32_bits : Z }.

(** The values [unpack] yields for the format codes H and f; a float is kept
    as the binary32 datum it was read from. *)
Inductive wire_val : Set :=
| WInt (n : Z)
| WFloat (x : float32).

Inductive fmt_code : Set :=
| code_H
| code_f.

Definition code_size (c : fmt_code) : nat :=
  match c with
  | code_H => 2
  | code_f => 4
  end.

(** Native alignment: a field starts at a multiple of its size. *)
Definition padding (off : nat) (c : fmt_code) : nat :=
  ((code_size c - off mod code_size c) mod code_size c)%nat.

Fixpoint calcsize_from (off : nat) (fmt : list fmt_code) : nat :=
  match fmt with
  | [] => off
  | c :: fmt => calcsize_from (off + padding off c + code_size c) fmt
  end.

Definition calcsize (fmt : list fmt_code) : nat := calcsize_from 0 fmt.

Fixpoint le_combine (l : list byte) : Z :=
  match l with
  | [] => 0
  | b :: l => Z.of_N (Byte.to_N b) + 256 * le_combine l
  end.

Definition combine_bytes (bo : byteorder) (l : list byte) : Z :=
  match bo with
  | LittleEndian => le_combine l
  | BigEndian => le_combine (rev l)
  end.

Definition decode_field (bo : byteorder) (c : fmt_code) (l : list byte) : wire_val :=
  match c with
  | code_H => WInt (combine_bytes bo l)
  | code_f => WFloat (F32 (combine_bytes bo l))
  end.

Fixpoint unpack_from (bo : byteorder) (off : nat) (fmt : list fmt_code)
    (buf : list byte) : list wire_val :=
  match fmt with
  | [] => []
  | c :: fmt =>
      let start := (off + padding off c)%nat in
      decode_field bo c (take (code_size c) (drop start buf))
      :: unpack_from bo (start + code_size c) fmt buf
  end.

Definition unpack (bo : byteorder) (fmt : list fmt_code) (buf : list byte)
  : result (list wire_val) :=
  if (length buf =? calcsize fmt)%nat then Ok (unpack_from bo 0 fmt buf)
  else Raise StructError.

(** ["HHHHHHHHfff"] *)
Definition record_format : list fmt_code :=
  [code_H; code_H; code_H; code_H; code_H; code_H; code_H; code_H;
   code_f; code_f; code_f].

(** ** The model [SoilHumidity] *)

Record SoilHumidity : Set := {
  timestamp : datetime;
  potId : option Z;
  airLevel : option Z;
  waterLevel : option Z;
  soilHumidity : option Z;
  soilHumidityPercent : option Z;
  airTemperature : option float32;
  airHumidity : option float32;
  heatIndex : option float32
}.

(** [list(SoilHumidity.schema()["properties"].keys())]: the names of the
    fields in the order of their declaration. *)
Definition columns : list string :=
  ["timestamp"; "potId"; "airLevel"; "waterLevel"; "soilHumidity";
   "soilHumidityPercent"; "airTemperature"; "airHumidity"; "heatIndex"].

(** A Python dict with string keys, as the list of its items. *)
Definition dict (V : Type) : Type := list (string * V).

Fixpoint dict_get {V} (k : string) (d : dict V) : option V :=
  match d with
  | [] => None
  | (k', v) :: d => if String.eqb k k' then Some v else dict_get k d
  end.

(** The coercions of pydantic between the types of the wire values and of
    the fields, [None] where pydantic rejects the value; the pipeline never
    exercises them. *)
Record coercions : Type := {
  int_of_float : float32 -> option Z;
  float_of_int : Z -> float32;
  datetime_of : wire_val -> option datetime
}.

Definition validated {A} (o : option A) : result A :=
  match o with
  | Some a => Ok a
  | None => Raise ValidationError
  end.

Definition validate_int (co : coercions) (v : option wire_val) : result (option Z) :=
  match v with
  | None => Ok None
  | Some (WInt n) => Ok (Some n)
  | Some (WFloat x) => n ← validated (int_of_float co x); Ok (Some n)
  end.

Definition validate_float (co : coercions) (v : option wire_val)
  : result (option float32) :=
  match v with
  | None => Ok None
  | Some (WFloat x) => Ok (Some x)
  | Some (WInt n) => Ok (Some (float_of_int co n))
  end.

(** The field [timestamp] falls back on its default factory, [utcnow]. *)
Definition validate_timestamp (co : coercions) (now : datetime)
    (v : option wire_val) : result datetime :=
  match v with
  | None => Ok now
  | Some w => validated (datetime_of co w)
  end.

(** The constructor of the model called on the keyword arguments
    [kwargs]; [now] is what [datetime.utcnow()] returns if
    the default factory is called. *)
Definition SoilHumidity_init (co : coercions) (now : datetime)
    (kwargs : dict wire_val) : result SoilHumidity :=
  ts ← validate_timestamp co now (dict_get "timestamp" kwargs);
  a ← validate_int co (dict_get "potId" kwargs);
  b ← validate_int co (dict_get "airLevel" kwargs);
  c ← validate_int co (dict_get "waterLevel" kwargs);
  d ← validate_int co (dict_get "soilHumidity" kwargs);
  e ← validate_int co (dict_get "soilHumidityPercent" kwargs);
  x ← validate_float co (dict_get "airTemperature" kwargs);
  y ← validate_float co (dict_get "airHumidity" kwargs);
  z ← validate_float co (dict_get "heatIndex" kwargs);
  Ok {| timestamp := ts; potId := a; airLevel := b; waterLevel := c;
        soilHumidity := d; soilHumidityPercent := e;
        airTemperature := x; airHumidity := y; heatIndex := z |}.

(** [{k: v for k, v in zip(columns[1:], data[3:])}] *)
Definition record_kwargs (data : list wire_val) : dict wire_val :=
  zip (drop 1 columns) (drop 3 data).

(** ** The archive and its [csv.DictWriter] *)

Inductive cell : Set :=
| CNone
| CInt (n : Z)
| CFloat (x : float32)
| CDatetime (d : datetime)
| CStr (s : string).

Definition opt_cell {A} (c : A -> cell) (o : option A) : cell :=
  match o with
  | Some a => c a
  | None => CNone
  end.

(** [data.dict()] *)
Definition SoilHumidity_dict (m : SoilHumidity) : dict cell :=
  [("timestamp", CDatetime (timestamp m));
   ("potId", opt_cell CInt (potId m));
   ("airLevel", opt_cell CInt (airLevel m));
   ("waterLevel", opt_cell CInt (waterLevel m));
   ("soilHumidity", opt_cell CInt (soilHumidity m));
   ("soilHumidityPercent", opt_cell CInt (soilHumidityPercent m));
   ("airTemperature", opt_cell CFloat (airTemperature m));
   ("airHumidity", opt_cell CFloat (airHumidity m));
   ("heatIndex", opt_cell CFloat (heatIndex m))].

(** [DictWriter.writerow]: a key that is no field name is an error, a
    missing field is written as the empty string.  The result is the row
    handed to the csv writer. *)
Definition writerow (fieldnames : list string) (rowdict : dict cell)
  : result (list cell) :=
  if forallb (fun kv => existsb (String.eqb (fst kv)) fieldnames) rowdict
  then Ok (map (fun k => default (CStr "") (dict_get k rowdict)) fieldnames)
  else Raise ValueError.

(** [DictWriter.writeheader]: the row of [dict(zip(fieldnames, fieldnames))]. *)
Definition writeheader (fieldnames : list string) : result (list cell) :=
  writerow fieldnames (zip fieldnames (map CStr fieldnames)).

(** The member [metrics.csv] of a zip file, as the rows written to it, and
    whether the container has been closed.  A zip file without the member
    and one whose member is empty both have no rows. *)
Record archive : Set := {
  rows : list (list cell);
  finalized : bool
}.

(** The archives written by the run, by path. *)
Abbreviation filesystem := (gmap string archive).

(** [zipfile.ZipFile(path, "w", ...)] and [zf.open("metrics.csv", "w")] *)
Definition archive_create (path : string) (fs : filesystem) : filesystem :=
  <[path := {| rows := []; finalized := false |}]> fs.

Definition archive_append (path : string) (row : list cell) (fs : filesystem)
  : filesystem :=
  alter (fun a => {| rows := rows a ++ [row]; finalized := finalized a |}) path fs.

Definition archive_close (path : string) (fs : filesystem) : filesystem :=
  alter (fun a => {| rows := rows a; finalized := true |}) path fs.

Definition archive_rows (path : string) (fs : filesystem) : list (list cell) :=
  match fs !! path with
  | Some a => rows a
  | None => []
  end.

(** [Path.home() / f".garden/metrics/pots/humidity/{now:%Y-%m-%d/%H-%M-%S}.zip"] *)
Definition archive_path (home : string) (now : datetime) : string :=
  home +:+ "/.garden/metrics/pots/humidity/" +:+ Datetime.strftime_path now
       +:+ ".zip".

(** ** The pipeline of [main] as a machine *)

(** The operations of the per-reading loop (lines 102 to 113): the test
    of line 102, the read and the unpacking of line 104, the construction
    of line 107, the append of line 108 and the message of lines 109 and
    110. *)
Inductive loop_pc : Set :=
| LTest
| LRead
| LUnpack (raw : list byte)
| LBuild (data : list wire_val)
| LWrite (m : SoilHumidity)
| LPrint (m : SoilHumidity).

(** The operation the process is about to execute, with the variables
    [checkpoint] and [path] where they are bound.  An archive is opened
    in five operations: the path of line 89, the directory and the message
    of lines 92 to 94, the creation of the zip file and of its member in
    lines 96 to 99, the header of line 100 and the checkpoint of line
    101. *)
Inductive pc : Set :=
| PSync
| PPreamble
| PInit
| POpen (checkpoint : datetime)
| PPrint (checkpoint : datetime) (path : string)
| PZip (checkpoint : datetime) (path : string)
| PHeader (checkpoint : datetime) (path : string)
| PAdvance (checkpoint : datetime) (path : string)
| PLoop (checkpoint : datetime) (path : string) (l : loop_pc)
| PStopped
| PCrashed (e : exn).

(** The variable [data], rebound on line 107. *)
Inductive data_var : Set :=
| Tuple (t : list wire_val)
| Model (m : SoilHumidity).

Inductive event : Set :=
| PrintWriting (path : string)
| PrintReading (m : SoilHumidity)
| PrintInvalid (data : data_var)
| Opened (path : string)
| Closed (path : string) (content : list (list cell)).

Record env : Type := {
  home : string;
  quiet : bool;
  verbose : bool;
  byte_order : byteorder;
  pydantic : coercions;
  port_end : exhausted;
  clock : nat -> Z;
  sigint : nat -> bool
}.

Record state : Type := {
  at_pc : pc;
  port : list byte;
  ticks : nat;
  ops : nat;
  fs : filesystem;
  log : list event
}.

Definition set_pc (p : pc) (s : state) : state :=
  {| at_pc := p; port := port s; ticks := ticks s; ops := ops s;
     fs := fs s; log := log s |}.

Definition set_port (b : list byte) (s : state) : state :=
  {| at_pc := at_pc s; port := b; ticks := ticks s; ops := ops s;
     fs := fs s; log := log s |}.

Definition set_fs (m : filesystem) (s : state) : state :=
  {| at_pc := at_pc s; port := port s; ticks := ticks s; ops := ops s;
     fs := m; log := log s |}.

Definition emit (ev : event) (s : state) : state :=
  {| at_pc := at_pc s; port := port s; ticks := ticks s; ops := ops s;
     fs := fs s; log := log s ++ [ev] |}.

Definition count_op (s : state) : state :=
  {| at_pc := at_pc s; port := port s; ticks := ticks s; ops := S (ops s);
     fs := fs s; log := log s |}.

(** [datetime.utcnow()] *)
Definition utcnow (e : env) (s : state) : datetime * state :=
  (Datetime.of_timestamp (clock e (ticks s)),
   {| at_pc := at_pc s; port := port s; ticks := S (ticks s); ops := ops s;
      fs := fs s; log := log s |}).

(** Leaving the three [with] blocks of lines 96 to 98 closes the archive. *)
Definition leave (path : string) (s : state) : state :=
  let m := archive_close path (fs s) in
  emit (Closed path (archive_rows path m)) (set_fs m s).

(** The handler of line 114, the only one around the pipeline. *)
Definition outer_except (e : exn) (s : state) : state :=
  match e with
  | KeyboardInterrupt => set_pc PStopped s
  | _ => set_pc (PCrashed e) s
  end.

(** An exception raised inside the [with] blocks of the archive [path]. *)
Definition raise_in_archive (path : string) (e : exn) (s : state) : state :=
  outer_except e (leave path s).

(** The handler of line 111. *)
Definition inner_except (en : env) (cp : datetime) (path : string)
    (data : data_var) (e : exn) (s : state) : state :=
  match e with
  | JSONDecodeError =>
      set_pc (PLoop cp path LTest)
             (if quiet en then s else emit (PrintInvalid data) s)
  | _ => raise_in_archive path e s
  end.

Definition terminal (p : pc) : bool :=
  match p with
  | PStopped | PCrashed _ => true
  | _ => false
  end.

(** One operation of the pipeline, run to completion. *)
Definition exec (en : env) (s : state) : state :=
  match at_pc s with
  | PSync =>
      match read_until (port_end en) sync_marker (port s) with
      | ReadOk _ rest => set_pc PPreamble (set_port rest s)
      | ReadBlocked => s
      | ReadError => set_pc (PCrashed SerialException) s
      end
  | PPreamble =>
      match port_read (port_end en) preamble_size (port s) with
      | ReadOk _ rest => set_pc PInit (set_port rest s)
      | ReadBlocked => s
      | ReadError => set_pc (PCrashed SerialException) s
      end
  | PInit =>
      let (now, s) := utcnow en s in
      set_pc (POpen (Datetime.replace_hour_start now)) s
  | POpen cp =>
      let (now, s) := utcnow en s in
      set_pc (PPrint cp (archive_path (home en) now)) s
  | PPrint cp path =>
      set_pc (PZip cp path)
             (if quiet en then s else emit (PrintWriting path) s)
  | PZip cp path =>
      set_pc (PHeader cp path)
             (emit (Opened path) (set_fs (archive_create path (fs s)) s))
  | PHeader cp path =>
      match writeheader columns with
      | Ok row =>
          set_pc (PAdvance cp path) (set_fs (archive_append path row (fs s)) s)
      | Raise ex => raise_in_archive path ex s
      end
  | PAdvance cp path =>
      set_pc (PLoop (Datetime.add cp (Datetime.hours 1)) path LTest) s
  | PLoop cp path LTest =>
      let (now, s) := utcnow en s in
      if Datetime.ltb now cp then set_pc (PLoop cp path LRead) s
      else set_pc (POpen cp) (leave path s)
  | PLoop cp path LRead =>
      match port_read (port_end en) record_size (port s) with
      | ReadOk raw rest => set_pc (PLoop cp path (LUnpack raw)) (set_port rest s)
      | ReadBlocked => s
      | ReadError => raise_in_archive path SerialException s
      end
  | PLoop cp path (LUnpack raw) =>
      match unpack (byte_order en) record_format raw with
      | Ok data => set_pc (PLoop cp path (LBuild data)) s
      | Raise ex => raise_in_archive path ex s
      end
  | PLoop cp path (LBuild data) =>
      let kwargs := record_kwargs data in
      let (now, s') := utcnow en s in
      let s := match dict_get "timestamp" kwargs with
               | Some _ => s
               | None => s'
               end in
      match SoilHumidity_init (pydantic en) now kwargs with
      | Ok m => set_pc (PLoop cp path (LWrite m)) s
      | Raise ex => inner_except en cp path (Tuple data) ex s
      end
  | PLoop cp path (LWrite m) =>
      match writerow columns (SoilHumidity_dict m) with
      | Ok row =>
          set_pc (PLoop cp path (LPrint m))
                 (set_fs (archive_append path row (fs s)) s)
      | Raise ex => inner_except en cp path (Model m) ex s
      end
  | PLoop cp path (LPrint m) =>
      set_pc (PLoop cp path LTest)
             (if verbose en then emit (PrintReading m) s else s)
  | PStopped | PCrashed _ => s
  end.

(** [KeyboardInterrupt] raised in place of the operation at hand: the
    process is inside the [with] blocks of the archive from the header of
    line 100 on. *)
Definition interrupt (en : env) (s : state) : state :=
  match at_pc s with
  | PSync | PPreamble => set_pc (PCrashed KeyboardInterrupt) s
  | PInit | POpen _ | PPrint _ _ | PZip _ _ =>
      outer_except KeyboardInterrupt s
  | PHeader _ path | PAdvance _ path =>
      raise_in_archive path KeyboardInterrupt s
  | PLoop cp path (LBuild data) =>
      inner_except en cp path (Tuple data) KeyboardInterrupt s
  | PLoop cp path (LWrite m) | PLoop cp path (LPrint m) =>
      inner_except en cp path (Model m) KeyboardInterrupt s
  | PLoop cp path _ => raise_in_archive path KeyboardInterrupt s
  | PStopped | PCrashed _ => s
  end.

Definition step (en : env) (s : state) : state :=
  if terminal (at_pc s) then s
  else if sigint en (ops s) then interrupt en (count_op s)
  else exec en (count_op s).

Fixpoint run (en : env) (n : nat) (s : state) : state :=
  match n with
  | O => s
  | S n => run en n (step en s)
  end.

(** The process when it enters [with port:]. *)
Definition start (bytes : list byte) : state :=
  {| at_pc := PSync; port := bytes; ticks := 0; ops := 0; fs := ∅; log := [] |}.

(** ** Notions used in the statements *)

(** A POSIX time truncated to the start of its hour. *)
Definition truncate_to_hour (t : Z) : Z :=
  Datetime.us_per_hour * (t / Datetime.us_per_hour).

Definition checkpoint_of (p : pc) : option datetime :=
  match p with
  | POpen cp | PPrint cp _ | PZip cp _ | PHeader cp _ | PAdvance cp _
  | PLoop cp _ _ => Some cp
  | _ => None
  end.

Definition is_opened (ev : event) : bool :=
  match ev with
  | Opened _ => true
  | _ => false
  end.

Definition is_closed (ev : event) : bool :=
  match ev with
  | Closed _ _ => true
  | _ => false
  end.

Definition count_opened (l : list event) : nat :=
  length (List.filter is_opened l).
Definition count_closed (l : list event) : nat :=
  length (List.filter is_closed l).

(** [needle] occurs in [hay] as a contiguous subsequence. *)
Definition contains (needle hay : list byte) : Prop :=
  exists a b, hay = a ++ needle ++ b.

(** The fields of a wire record by their offsets. *)
Definition u16_at (bo : byteorder) (raw : list byte) (off : nat) : Z :=
  combine_bytes bo (take 2 (drop off raw)).

Definition f32_at (bo : byteorder) (raw : list byte) (off : nat) : float32 :=
  F32 (combine_bytes bo (take 4 (drop off raw))).

(** Lines 104 and 107: a wire record to a reading. *)
Definition decode_record (bo : byteorder) (co : coercions) (now : datetime)
    (raw : list byte) : result SoilHumidity :=
  data ← unpack bo record_format raw;
  SoilHumidity_init co now (record_kwargs data).

(** The row of [metrics.csv] for the wire record [raw] decoded at [now]. *)
Definition reading_row (bo : byteorder) (now : datetime) (raw : list byte)
  : list cell :=
  [CDatetime now;
   CInt (u16_at bo raw 6); CInt (u16_at bo raw 8); CInt (u16_at bo raw 10);
   CInt (u16_at bo raw 12); CInt (u16_at bo raw 14);
   CFloat (f32_at bo raw 16); CFloat (f32_at bo raw 20);
   CFloat (f32_at bo raw 24)].

Definition header_row : list cell := map CStr columns.

Definition all_finalized (m : filesystem) : Prop :=
  forall p a, m !! p = Some a -> finalized a = true.

(** The operations inside the [try] block of lines 85 to 115. *)
Definition in_try (p : pc) : bool :=
  match p with
  | PInit | POpen _ | PPrint _ _ | PZip _ _ | PHeader _ _ | PAdvance _ _
  | PLoop _ _ _ => true
  | _ => false
  end.

Definition at_loop_top (p : pc) : bool :=
  match p with
  | PLoop _ _ LTest => true
  | _ => false
  end.

(** The archive whose [with] blocks the process is in. *)
Definition open_path (p : pc) : option string :=
  match p with
  | PHeader _ path | PAdvance _ path | PLoop _ path _ => Some path
  | _ => None
  end.

(** The archive whose header row is still to be written. *)
Definition headerless_path (p : pc) : option string :=
  match p with
  | PHeader _ path => Some path
  | _ => None
  end.

(** Every archive but [h] starts with the header row, [h] has no row
    yet, and only the archive [o] may still be open. *)
Definition fs_inv (o h : option string) (m : filesystem) : Prop :=
  forall p a, m !! p = Some a ->
    (if decide (h = Some p) then rows a = []
     else exists tl, rows a = header_row :: tl)
    /\ (finalized a = false -> o = Some p).

(** A run that was stopped by an interrupt may leave an archive without
    its header row. *)
Definition fs_stopped (m : filesystem) : Prop :=
  forall p a, m !! p = Some a ->
    (rows a = [] \/ exists tl, rows a = header_row :: tl)
    /\ finalized a = true.

Definition inv_fs (s : state) : Prop :=
  match at_pc s with
  | PStopped => fs_stopped (fs s)
  | _ => fs_inv (open_path (at_pc s)) (headerless_path (at_pc s)) (fs s)
  end.

(** The checkpoint in terms of the time [t0] read at line 86 and of the
    archives opened and closed so far. *)
Definition checkpoint_after (t0 : Z) (opened : nat) : datetime :=
  Datetime.of_timestamp
    (truncate_to_hour t0 + Datetime.hours (Z.of_nat opened)).

Definition inv_checkpoint (en : env) (s : state) : Prop :=
  match at_pc s with
  | PSync | PPreamble | PInit => ticks s = 0%nat /\ log s = []
  | POpen cp | PPrint cp _ | PZip cp _ =>
      cp = checkpoint_after (clock en 0) (count_closed (log s))
      /\ count_opened (log s) = count_closed (log s)
  | PHeader cp _ | PAdvance cp _ =>
      cp = checkpoint_after (clock en 0) (count_closed (log s))
      /\ count_opened (log s) = S (count_closed (log s))
  | PLoop cp _ _ =>
      cp = checkpoint_after (clock en 0) (count_opened (log s))
      /\ count_opened (log s) = S (count_closed (log s))
  | PStopped | PCrashed _ => True
  end.

Definition inv_stopped (en : env) (s : state) : Prop :=
  at_pc s = PStopped -> exists i, (i < ops s)%nat /\ sigint en i = true.

Definition is_invalid (ev : event) : bool :=
  match ev with
  | PrintInvalid _ => true
  | _ => false
  end.

Definition inv_log (s : state) : Prop :=
  forallb (fun ev => negb (is_invalid ev)) (log s) = true.

(** ** A sample environment *)

Definition sample_coercions : coercions :=
  {| int_of_float := fun _ => None;
     float_of_int := fun n => F32 n;
     datetime_of := fun _ => None |}.

(** Started on 2024-05-01 at 12:17:45.123456 UTC, one clock reading
    every 1000 seconds, never interrupted. *)
Definition sample_env : env :=
  {| home := "/home/pi";
     quiet := false;
     verbose := true;
     byte_order := LittleEndian;
     pydantic := sample_coercions;
     port_end := Blocks;
     clock := fun n => 1714565865123456 + Z.of_nat n * 1000000000;
     sigint := fun _ => false |}.

Definition sample_record : list byte :=
  [x01; x00; x02; x00; x03; x00; x04; x00; x05; x00; x06; x00; x07; x00;
   x08; x01; x00; x00; x80; x3f; x00; x00; x00; x40; x00; x00; x40; x40].

Definition sample_preamble : list byte :=
  [x01; x02; x03; x04; x05; x06; x07; x08; x09; x0a; x0b;
   x0c; x0d; x0e; x0f; x10; x11; x12; x13; x14; x15; x16].

Definition sample_input : list byte :=
  [x00; x9a; x16] ++ sync_marker ++ sample_preamble
  ++ sample_record ++ sample_record ++ [x00].

(** The same, started at 12:00:00 sharp. *)
Definition on_the_hour_env : env :=
  {| home := "/home/pi";
     quiet := false;
     verbose := true;
     byte_order := LittleEndian;
     pydantic := sample_coercions;
     port_end := Blocks;
     clock := fun n => 1714564800000000 + Z.of_nat n * 1000000000;
     sigint := fun _ => false |}.

(** Interrupted at its tenth operation, the first read of a record. *)
Definition interrupted_env : env :=
  {| home := "/home/pi";
     quiet := false;
     verbose := true;
     byte_order := LittleEndian;
     pydantic := sample_coercions;
     port_end := Blocks;
     clock := fun n => 1714565865123456 + Z.of_nat n * 1000000000;
     sigint := fun n => (n =? 9)%nat |}.

(** The reading decoded from the wire record [raw] at [now]. *)
Definition reading_of (bo : byteorder) (now : datetime) (raw : list byte)
  : SoilHumidity :=
  {| timestamp := now;
     potId := Some (u16_at bo raw 6);
     airLevel := Some (u16_at bo raw 8);
     waterLevel := Some (u16_at bo raw 10);
     soilHumidity := Some (u16_at bo raw 12);
     soilHumidityPercent := Some (u16_at bo raw 14);
     airTemperature := Some (f32_at bo raw 16);
     airHumidity := Some (f32_at bo raw 20);
     heatIndex := Some (f32_at bo raw 24) |}.

(** The rows of the wire records [recs], the first of which is awaited at
    the loop test that reads the clock for the [tick]-th time: each
    iteration reads the clock twice, for the test and for the timestamp. *)
Fixpoint record_rows (en : env) (tick : nat) (recs : list (list byte))
  : list (list cell) :=
  match recs with
  | [] => []
  | raw :: recs =>
      reading_row (byte_order en)
        (Datetime.of_timestamp (clock en (S tick))) raw
      :: record_rows en (S (S tick)) recs
  end.

(** What a reading loop of [recs] prints in verbose mode. *)
Fixpoint record_prints (en : env) (tick : nat) (recs : list (list byte))
  : list event :=
  match recs with
  | [] => []
  | raw :: recs =>
      (if verbose en
       then [PrintReading (reading_of (byte_order en)
                             (Datetime.of_timestamp (clock en (S tick))) raw)]
       else [])
      ++ record_prints en (S (S tick)) recs
  end.

(** The events of opening the archive [path]. *)
Definition open_events (en : env) (path : string) : list event :=
  (if quiet en then [] else [PrintWriting path]) ++ [Opened path].

(** Interrupted at its twelfth operation, the construction of the first
    reading. *)
Definition interrupted_decode_env : env :=
  {| home := "/home/pi";
     quiet := false;
     verbose := true;
     byte_order := LittleEndian;
     pydantic := sample_coercions;
     port_end := Blocks;
     clock := fun n => 1714565865123456 + Z.of_nat n * 1000000000;
     sigint := fun n => (n =? 11)%nat |}.

(** A byte source that returns short reads at its end. *)
Definition short_read_env : env :=
  {| home := "/home/pi";
     quiet := false;
     verbose := true;
     byte_order := LittleEndian;
     pydantic := sample_coercions;
     port_end := ReturnsShort;
     clock := fun n => 1714565865123456 + Z.of_nat n * 1000000000;
     sigint := fun _ => false |}.

(** Started at 12:17:45.123456; every later clock reading falls in the
    second 15:17:45, three hours on. *)
Definition stalled_env : env :=
  {| home := "/home/pi";
     quiet := true;
     verbose := false;
     byte_order := LittleEndian;
     pydantic := sample_coercions;
     port_end := Blocks;
     clock := fun n => match n with
                       | O => 1714565865123456
                       | S _ => 1714576665000000 + Z.of_nat n
                       end;
     sigint := fun _ => false |}.

(** An archive closed with nothing but its header row. *)
Definition header_only : archive :=
  {| rows := [header_row]; finalized := true |}.

(** The archive opened when the clock is read for the [tick]-th time. *)
Definition path_at (en : env) (tick : nat) : string :=
  archive_path (home en) (Datetime.of_timestamp (clock en tick)).

(** The events of [k] archives in a row that are opened and closed at
    once, the first of them opened at the [tick]-th reading of the clock. *)
Fixpoint burst_events (en : env) (tick k : nat) : list event :=
  match k with
  | O => []
  | S k =>
      open_events en (path_at en tick)
      ++ [Closed (path_at en tick) [header_row]]
      ++ burst_events en (S (S tick)) k
  end.

(** Started at 12:59:59; the clock reads 13:00:00.5 at the second test of
    the loop and is then set back to 12:59:59.9. *)
Definition step_back_env : env :=
  {| home := "/home/pi";
     quiet := true;
     verbose := false;
     byte_order := LittleEndian;
     pydantic := sample_coercions;
     port_end := Blocks;
     clock := fun n => if (n <? 4)%nat then 1714568399000000 + Z.of_nat n
                       else if (n =? 4)%nat then 1714568400500000
                       else 1714568399900000 + Z.of_nat n;
     sigint := fun _ => false |}.

(** ** The choice of the port (lines 16 to 80) *)

(** [serial.tools.list_ports_common.ListPortInfo] *)
Record ListPortInfo : Set := {
  device : string;
  name : option string;
  description : string;
  hwid : string;
  vid : option Z;
  pid : option Z;
  serial_number : option string;
  location : option string;
  manufacturer : option string;
  product : option string;
  interface : option string
}.

Definition arduino : string := "Arduino (www.arduino.cc)".

(** [port.manufacturer == "Arduino (www.arduino.cc)"] *)
Definition is_arduino (p : ListPortInfo) : bool :=
  match manufacturer p with
  | Some m => String.eqb m arduino
  | None => false
  end.

(** [suggest_comport] on the ports that [comports()] enumerates: the
    function falls off its loop, and returns [None], when no port
    matches. *)
Fixpoint suggest_comport (ports : list ListPortInfo) : option ListPortInfo :=
  match ports with
  | [] => None
  | port :: ports => if is_arduino port then Some port else suggest_comport ports
  end.

(** The namespace that [parser.parse_args()] returns. *)
Record args : Set := {
  arg_port : option string;
  arg_baudrate : Z;
  arg_list : bool;
  arg_verbose : bool;
  arg_quiet : bool
}.

(** [not args.port]: the argument is absent or empty. *)
Definition no_port (p : option string) : bool :=
  match p with
  | None => true
  | Some s => String.eqb s ""
  end.

(** What [--list] prints for a port: [print(port)], or the block of its
    fields. *)
Inductive listing : Set :=
| Brief (p : ListPortInfo)
| Detailed (p : ListPortInfo).

(** How [main] goes on after line 75. *)
Inductive prelude : Set :=
| Listed (out : list listing)
| DeviceNotFound
| AttributeError
| OpenSerial (port : string) (baudrate : Z).

(** Lines 73 to 80 *)
Definition open_serial (port : option string) (baudrate : Z) : prelude :=
  if no_port port then DeviceNotFound
  else match port with
       | Some p => OpenSerial p baudrate
       | None => DeviceNotFound
       end.

(** Lines 46 to 80; [comports n] is what the n-th call of [comports()]
    enumerates.  A [ListPortInfo] is always true; [suggest_comport] is
    called a second time for the device, and [None] has no attribute
    [device]. *)
Definition main_prelude (a : args) (comports : nat -> list ListPortInfo)
  : prelude :=
  if arg_list a then
    Listed (map (fun port => if arg_verbose a then Detailed port else Brief port)
              (comports 0%nat))
  else if no_port (arg_port a) then
    match suggest_comport (comports 0%nat) with
    | Some _ =>
        match suggest_comport (comports 1%nat) with
        | Some port => open_serial (Some (device port)) (arg_baudrate a)
        | None => AttributeError
        end
    | None => open_serial (arg_port a) (arg_baudrate a)
    end
  else open_serial (arg_port a) (arg_baudrate a).

(** A sample enumeration. *)
Definition usb_serial : ListPortInfo :=
  {| device := "/dev/ttyUSB0"; name := Some "ttyUSB0";
     description := "USB Serial"; hwid := "USB VID:PID=1A86:7523";
     vid := Some 6790; pid := Some 29987; serial_number := None;
     location := Some "1-1.2"; manufacturer := Some "QinHeng Electronics";
     product := Some "USB Serial"; interface := None |}.

Definition arduino_uno : ListPortInfo :=
  {| device := "/dev/ttyACM0"; name := Some "ttyACM0";
     description := "Arduino Uno"; hwid := "USB VID:PID=2341:0043";
     vid := Some 9025; pid := Some 67; serial_number := Some "85430";
     location := Some "1-1.3"; manufacturer := Some "Arduino (www.arduino.cc)";
     product := None; interface := None |}.

Definition no_arguments : args :=
  {| arg_port := None; arg_baudrate := 19200; arg_list := false;
     arg_verbose := false; arg_quiet := false |}.

(** [line] ends with the sync marker. *)
Definition ends_with_marker (line : list byte) : Prop :=
  exists a, line = a ++ sync_marker.

(** Interrupted at its second operation, the discarding of the preamble. *)
Definition interrupted_sync_env : env :=
  {| home := "/home/pi";
     quiet := false;
     verbose := true;
     byte_order := LittleEndian;
     pydantic := sample_coercions;
     port_end := Blocks;
     clock := fun n => 1714565865123456 + Z.of_nat n * 1000000000;
     sigint := fun n => (n =? 1)%nat |}.

(** What the process prints. *)
Definition is_print (ev : event) : bool :=
  match ev with
  | PrintWriting _ | PrintReading _ | PrintInvalid _ => true
  | Opened _ | Closed _ _ => false
  end.

(** A state without the record of what was printed. *)
Definition unprinted (s : state) : state :=
  {| at_pc := at_pc s; port := port s; ticks := ticks s; ops := ops s;
     fs := fs s; log := List.filter (fun ev => negb (is_print ev)) (log s) |}.

(** The same environment with [--quiet] and without [--verbose]. *)
Definition silent (en : env) : env :=
  {| home := home en; quiet := true; verbose := false;
     byte_order := byte_order en; pydantic := pydantic en;
     port_end := port_end en; clock := clock en; sigint := sigint en |}.

(** The [j]-th block of 28 bytes of [payload]. *)
Definition frame (payload : list byte) (j : nat) : list byte :=
  take record_size (drop (record_size * j) payload).

(** [row] is the decoding of a whole block of [payload]. *)
Definition frame_row (en : env) (payload : list byte) (row : list cell) : Prop :=
  exists j i,
    length (frame payload j) = record_size
    /\ row = reading_row (byte_order en)
               (Datetime.of_timestamp (clock en i)) (frame payload j).

Definition fs_rows (P : list cell -> Prop) (m : filesystem) : Prop :=
  forall p a, m !! p = Some a -> Forall P (tail (rows a)).

(** After the synchronization that left [payload] on the port, the port
    is read block by block and every row comes from a whole block. *)
Definition inv_frames (en : env) (payload : list byte) (s : state) : Prop :=
  (exists k, port s = drop (record_size * k) payload)
  /\ match at_pc s with
     | PSync | PPreamble => False
     | PHeader _ path => forall a, fs s !! path = Some a -> rows a = []
     | PLoop _ _ (LUnpack raw) => exists j, raw = frame payload j
     | PLoop _ _ (LBuild data) =>
         exists j, unpack (byte_order en) record_format (frame payload j)
                   = Ok data
     | PLoop _ _ (LWrite m) =>
         exists j i,
           length (frame payload j) = record_size
           /\ m = reading_of (byte_order en)
                    (Datetime.of_timestamp (clock en i)) (frame payload j)
     | _ => True
     end
  /\ fs_rows (frame_row en payload) (fs s).

Definition inv_presync (s : state) : Prop :=
  match at_pc s with
  | PSync | PPreamble | PInit => fs s = ∅
  | _ => True
  end.

Definition is_writing (ev : event) : bool :=
  match ev with
  | PrintWriting _ => true
  | _ => false
  end.

Definition is_reading (ev : event) : bool :=
  match ev with
  | PrintReading _ => true
  | _ => false
  end.

(** What [--quiet] and [--verbose] let through: the message of line 94
    comes before the creation of the archive. *)
Definition inv_prints (en : env) (s : state) : Prop :=
  (quiet en = true -> forallb (fun ev => negb (is_writing ev)) (log s) = true)
  /\ (quiet en = false ->
      match at_pc s with
      | PZip _ _ =>
          length (List.filter is_writing (log s)) = S (count_opened (log s))
      | PStopped | PCrashed _ =>
          (count_opened (log s) <= length (List.filter is_writing (log s))
           <= S (count_opened (log s)))%nat
      | _ => length (List.filter is_writing (log s)) = count_opened (log s)
      end)
  /\ (verbose en = false ->
      forallb (fun ev => negb (is_reading ev)) (log s) = true).

(** Quiet and verbose at once. *)
Definition quiet_verbose_env : env :=
  {| home := "/home/pi";
     quiet := true;
     verbose := true;
     byte_order := LittleEndian;
     pydantic := sample_coercions;
     port_end := Blocks;
     clock := fun n => 1714565865123456 + Z.of_nat n * 1000000000;
     sigint := fun _ => false |}.

(** Every archive is stored at the path of a clock reading. *)
Definition inv_paths (en : env) (s : state) : Prop :=
  match at_pc s with
  | PPrint _ path | PZip _ path => exists i, path = path_at en i
  | _ => True
  end
  /\ forall p a, fs s !! p = Some a -> exists i, p = path_at en i.

(** Interrupted at its seventh operation, the writing of the header. *)
Definition interrupted_open_env : env :=
  {| home := "/home/pi";
     quiet := false;
     verbose := true;
     byte_order := LittleEndian;
     pydantic := sample_coercions;
     port_end := Blocks;
     clock := fun n => 1714565865123456 + Z.of_nat n * 1000000000;
     sigint := fun n => (n =? 6)%nat |}.

(** * Properties *)

Example strftime_2024 :
  Datetime.strftime_path (Datetime.of_timestamp 1714565865123456)
  = "2024-05-01/12-17-45".
Proof. vm_compute. reflexivity. Qed.

Example record_format_size : calcsize record_format = record_size.
Proof. reflexivity. Qed.

(** ** Datetime arithmetic *)

Module DatetimeFacts.
Import Datetime.

Ltac unfold_units :=
  change us_per_day with 86400000000 in *;
  change us_per_hour with 3600000000 in *;
  change us_per_minute with 60000000 in *;
  change us_per_second with 1000000 in *.

Ltac euclid := Z.div_mod_to_equations; lia.

Lemma of_us_valid n : valid (of_us n).
Proof.
  unfold valid, of_us; cbn [hour minute second microsecond ordinal].
  unfold_units. repeat split; euclid.
Qed.

Lemma to_us_of_us n : to_us (of_us n) = n.
Proof.
  unfold to_us, of_us; cbn [hour minute second microsecond ordinal].
  unfold_units. euclid.
Qed.

Lemma of_us_to_us d : valid d -> of_us (to_us d) = d.
Proof.
  destruct d as [o h m s u].
  unfold valid, to_us, of_us; cbn [hour minute second microsecond ordinal].
  unfold_units. intros (Hh & Hm & Hs & Hu). f_equal; euclid.
Qed.

Lemma ltb_to_us a b : valid a -> valid b -> ltb a b = (to_us a <? to_us b).
Proof.
  destruct a as [o h m s u], b as [o' h' m' s' u'].
  unfold valid, to_us, ltb; cbn [hour minute second microsecond ordinal].
  unfold_units. intros (Hh & Hm & Hs & Hu) (Hh' & Hm' & Hs' & Hu').
  repeat match goal with
         | |- context [?x =? ?y] => destruct (Z.eqb_spec x y)
         end;
    subst; apply eq_true_iff_eq; rewrite !Z.ltb_lt; lia.
Qed.

Lemma replace_hour_start_of_us n :
  replace_hour_start (of_us n) = of_us (us_per_hour * (n / us_per_hour)).
Proof.
  unfold replace_hour_start, of_us; cbn [hour minute second microsecond ordinal].
  unfold_units. f_equal; euclid.
Qed.

Lemma add_of_us n k : add (of_us n) k = of_us (n + k).
Proof. unfold add. by rewrite to_us_of_us. Qed.

Lemma replace_hour_start_of_timestamp t :
  replace_hour_start (of_timestamp t) = of_timestamp (truncate_to_hour t).
Proof.
  unfold of_timestamp, truncate_to_hour. rewrite replace_hour_start_of_us.
  f_equal. unfold epoch_ordinal. unfold_units. euclid.
Qed.

Lemma add_of_timestamp t k : add (of_timestamp t) k = of_timestamp (t + k).
Proof. unfold of_timestamp. rewrite add_of_us. f_equal. lia. Qed.

Lemma ltb_of_timestamp a b : ltb (of_timestamp a) (of_timestamp b) = (a <? b).
Proof.
  unfold of_timestamp. rewrite ltb_to_us by apply of_us_valid.
  rewrite !to_us_of_us. apply eq_true_iff_eq. rewrite !Z.ltb_lt. lia.
Qed.

End DatetimeFacts.

(** ** The record decoder *)

Section Decoder.
Variables (bo : byteorder) (co : coercions).

Lemma port_read_app x (n : nat) (raw rest : list byte) :
  length raw = n -> port_read x n (raw ++ rest) = ReadOk raw rest.
Proof.
  intros <-. unfold port_read.
  rewrite length_app, (proj2 (Nat.leb_le _ _)) by lia.
  by rewrite take_app_length, drop_app_length.
Qed.

Lemma unpack_record (raw : list byte) :
  length raw = record_size ->
  unpack bo record_format raw
  = Ok [WInt (u16_at bo raw 0); WInt (u16_at bo raw 2); WInt (u16_at bo raw 4);
        WInt (u16_at bo raw 6); WInt (u16_at bo raw 8); WInt (u16_at bo raw 10);
        WInt (u16_at bo raw 12); WInt (u16_at bo raw 14);
        WFloat (f32_at bo raw 16); WFloat (f32_at bo raw 20);
        WFloat (f32_at bo raw 24)].
Proof.
  intros Hlen. unfold unpack. rewrite Hlen. reflexivity.
Qed.

Lemma unpack_wrong_size (raw : list byte) :
  length raw <> record_size -> unpack bo record_format raw = Raise StructError.
Proof.
  intros Hlen. unfold unpack.
  by rewrite (proj2 (Nat.eqb_neq _ _)).
Qed.

Lemma decode_record_ok now (raw : list byte) :
  length raw = record_size ->
  decode_record bo co now raw
  = Ok {| timestamp := now;
          potId := Some (u16_at bo raw 6);
          airLevel := Some (u16_at bo raw 8);
          waterLevel := Some (u16_at bo raw 10);
          soilHumidity := Some (u16_at bo raw 12);
          soilHumidityPercent := Some (u16_at bo raw 14);
          airTemperature := Some (f32_at bo raw 16);
          airHumidity := Some (f32_at bo raw 20);
          heatIndex := Some (f32_at bo raw 24) |}.
Proof.
  intros Hlen. unfold decode_record. rewrite unpack_record by done. reflexivity.
Qed.

Lemma drop_agree (a b : list byte) (k off : nat) :
  drop k a = drop k b -> (k <= off)%nat -> drop off a = drop off b.
Proof.
  intros E Hle. replace off with (k + (off - k))%nat by lia.
  by rewrite <- !drop_drop, E.
Qed.

(** C1: the decoder reads exactly the 28 bytes of a wire record, unpacks
    them as 8 unsigned 16-bit integers followed by 3 floats, and builds
    the reading from the integers 3 to 7 and the 3 floats, in the order
    of the fields; the reading does not depend on the first 3 integers. *)
Theorem decoder_layout x now (raw rest : list byte) :
  length raw = record_size ->
  port_read x record_size (raw ++ rest) = ReadOk raw rest
  /\ unpack bo record_format raw
     = Ok [WInt (u16_at bo raw 0); WInt (u16_at bo raw 2);
           WInt (u16_at bo raw 4); WInt (u16_at bo raw 6);
           WInt (u16_at bo raw 8); WInt (u16_at bo raw 10);
           WInt (u16_at bo raw 12); WInt (u16_at bo raw 14);
           WFloat (f32_at bo raw 16); WFloat (f32_at bo raw 20);
           WFloat (f32_at bo raw 24)]
  /\ decode_record bo co now raw
     = Ok {| timestamp := now;
             potId := Some (u16_at bo raw 6);
             airLevel := Some (u16_at bo raw 8);
             waterLevel := Some (u16_at bo raw 10);
             soilHumidity := Some (u16_at bo raw 12);
             soilHumidityPercent := Some (u16_at bo raw 14);
             airTemperature := Some (f32_at bo raw 16);
             airHumidity := Some (f32_at bo raw 20);
             heatIndex := Some (f32_at bo raw 24) |}
  /\ (forall raw' : list byte,
        length raw' = record_size -> drop 6 raw' = drop 6 raw ->
        decode_record bo co now raw' = decode_record bo co now raw).
Proof.
  intros Hlen. split; [by apply port_read_app|].
  split; [by apply unpack_record|].
  split; [by apply decode_record_ok|].
  intros raw' Hlen' E. rewrite !decode_record_ok by done.
  unfold u16_at, f32_at.
  by rewrite !(drop_agree raw' raw 6) by (done || lia).
Qed.

End Decoder.

(** ** The frame synchronizer *)

Lemma bytes_eqb_eq (a b : list byte) : bytes_eqb a b = true <-> a = b.
Proof.
  revert b. induction a as [|x a IH]; intros [|y b]; simpl; try easy.
  rewrite andb_true_iff, IH. split.
  - intros [E ->]. f_equal. by apply Byte.byte_dec_bl.
  - intros [= -> ->]. split; [|done]. by apply Byte.byte_dec_lb.
Qed.

Lemma py_suffix_eq (n : nat) (line e : list byte) :
  length e = n -> py_suffix n line = e -> exists a, line = a ++ e.
Proof.
  intros _ <-. exists (take (length line - n) line).
  unfold py_suffix. by rewrite take_drop.
Qed.

Lemma py_suffix_app (a e : list byte) : py_suffix (length e) (a ++ e) = e.
Proof.
  unfold py_suffix. rewrite length_app.
  replace (length a + length e - length e)%nat with (length a) by lia.
  apply drop_app_length.
Qed.

(** The loop stops at the end of [w] when no shorter prefix of [w] makes
    the line end with [expected]. *)
Lemma read_until_loop_scan x (expected w : list byte) :
  forall line rest,
    w <> [] ->
    (forall p q, w = p ++ q -> p <> [] -> q <> [] ->
                 py_suffix (length expected) (line ++ p) <> expected) ->
    py_suffix (length expected) (line ++ w) = expected ->
    read_until_loop x expected line (w ++ rest) = ReadOk (line ++ w) rest.
Proof.
  induction w as [|c w IH]; intros line rest Hne Hno Hend; [done|].
  simpl. destruct w as [|c' w].
  - rewrite (proj2 (bytes_eqb_eq _ _) Hend). done.
  - destruct (bytes_eqb _ expected) eqn:E.
    + apply bytes_eqb_eq in E. by destruct (Hno [c] (c' :: w)).
    + rewrite (IH (line ++ [c]) rest); [by rewrite <- app_assoc|done| |].
      * intros p q Hw Hp Hq. rewrite <- app_assoc.
        apply (Hno (c :: p) q); [by rewrite Hw|done|done].
      * by rewrite <- app_assoc.
Qed.

(** No byte of the marker after the first equals the first: the marker
    cannot overlap a shifted copy of itself. *)
Lemma sync_marker_no_overlap (d q : list byte) :
  sync_marker ++ q = d ++ sync_marker ->
  (0 < length d < length sync_marker)%nat -> False.
Proof.
  intros E [Hd1 Hd2].
  apply (f_equal (fun l : list byte => l !! length d)) in E.
  rewrite lookup_app_l in E by done.
  rewrite lookup_app_r, Nat.sub_diag in E by done.
  simpl in Hd2. destruct (length d) as [|[|[|[|[|[|n]]]]]]; try lia; discriminate.
Qed.

Lemma marker_first_at_end (noise p q : list byte) :
  ~ contains sync_marker noise ->
  noise ++ sync_marker = p ++ q -> q <> [] ->
  py_suffix (length sync_marker) p <> sync_marker.
Proof.
  intros Hfree Hw Hq Hend.
  apply py_suffix_eq in Hend as [a ->]; [|done].
  assert (Hlen : (length noise + 6 = length a + 6 + length q)%nat).
  { apply (f_equal length) in Hw. rewrite !length_app in Hw. simpl in Hw. lia. }
  assert (Hqlen : (0 < length q)%nat) by (destruct q; [done|simpl; lia]).
  destruct (decide (length q < 6)%nat) as [Hshort|Hlong].
  - (* the occurrence overlaps the marker itself *)
    apply (f_equal (drop (length a))) in Hw.
    rewrite <- app_assoc, drop_app_length in Hw.
    rewrite drop_app_le in Hw by lia.
    apply (sync_marker_no_overlap (drop (length a) noise) q); [done|].
    rewrite length_drop. simpl. lia.
  - (* the occurrence lies inside the noise *)
    apply Hfree. exists a, (take (length q - 6) q).
    apply (f_equal (take (length noise))) in Hw.
    rewrite take_app_length in Hw. rewrite Hw.
    rewrite <- app_assoc, take_app_ge by lia.
    f_equal. rewrite take_app_ge by (simpl; lia). f_equal. f_equal.
    simpl. lia.
Qed.

Lemma read_until_marker x (noise rest : list byte) :
  ~ contains sync_marker noise ->
  read_until x sync_marker (noise ++ sync_marker ++ rest)
  = ReadOk (noise ++ sync_marker) rest.
Proof.
  intros Hfree. unfold read_until.
  rewrite app_assoc.
  apply (read_until_loop_scan x sync_marker (noise ++ sync_marker) [] rest).
  - by destruct noise.
  - intros p q Hw _ Hq. simpl. by apply (marker_first_at_end noise p q).
  - apply (py_suffix_app noise sync_marker).
Qed.

(** ** Runs of the machine *)

Lemma run_add en (a b : nat) s : run en (a + b) s = run en b (run en a s).
Proof. revert s. induction a as [|a IH]; intros s; [done|]. simpl. apply IH. Qed.

Lemma run_succ en (n : nat) s : run en (S n) s = step en (run en n s).
Proof. replace (S n) with (n + 1)%nat by lia. by rewrite run_add. Qed.

Lemma run_invariant en (P : state -> Prop) s :
  P s -> (forall s', P s' -> P (step en s')) -> forall n, P (run en n s).
Proof.
  intros H0 Hstep n. induction n as [|n IH]; [done|].
  rewrite run_succ. by apply Hstep.
Qed.

Lemma step_exec en s :
  terminal (at_pc s) = false -> sigint en (ops s) = false ->
  step en s = exec en (count_op s).
Proof. intros Ht Hs. unfold step. by rewrite Ht, Hs. Qed.

Lemma step_interrupt en s :
  terminal (at_pc s) = false -> sigint en (ops s) = true ->
  step en s = interrupt en (count_op s).
Proof. intros Ht Hs. unfold step. by rewrite Ht, Hs. Qed.

Lemma step_terminal en s : terminal (at_pc s) = true -> step en s = s.
Proof. intros Ht. unfold step. by rewrite Ht. Qed.

Lemma writeheader_columns : writeheader columns = Ok header_row.
Proof. reflexivity. Qed.

Lemma writerow_reading m :
  writerow columns (SoilHumidity_dict m)
  = Ok [CDatetime (timestamp m);
        opt_cell CInt (potId m); opt_cell CInt (airLevel m);
        opt_cell CInt (waterLevel m); opt_cell CInt (soilHumidity m);
        opt_cell CInt (soilHumidityPercent m);
        opt_cell CFloat (airTemperature m); opt_cell CFloat (airHumidity m);
        opt_cell CFloat (heatIndex m)].
Proof. reflexivity. Qed.

Lemma record_kwargs_no_timestamp data :
  dict_get "timestamp" (record_kwargs data) = None.
Proof.
  unfold record_kwargs.
  destruct data as [|? [|? [|? [|a [|b [|c [|d [|e [|x [|y [|z data]]]]]]]]]]];
    reflexivity.
Qed.

Lemma unpack_raises bo fmt raw e : unpack bo fmt raw = Raise e -> e = StructError.
Proof. unfold unpack. case_match; congruence. Qed.

Lemma validate_int_raises co v e :
  validate_int co v = Raise e -> e = ValidationError.
Proof.
  destruct v as [[n|x]|]; simpl; try done.
  destruct (int_of_float co x); simpl; congruence.
Qed.

Lemma validate_float_raises co v e :
  validate_float co v = Raise e -> e = ValidationError.
Proof. destruct v as [[n|x]|]; simpl; done. Qed.

Lemma validate_timestamp_raises co now v e :
  validate_timestamp co now v = Raise e -> e = ValidationError.
Proof.
  destruct v as [w|]; simpl; [|done].
  destruct (datetime_of co w); simpl; congruence.
Qed.

(** The constructor of the model only ever raises [ValidationError]. *)
Lemma SoilHumidity_init_raises co now kwargs e :
  SoilHumidity_init co now kwargs = Raise e -> e = ValidationError.
Proof.
  unfold SoilHumidity_init, mbind, result_bind.
  repeat match goal with
         | |- context [match ?v with Ok _ => _ | Raise _ => _ end] =>
             let E := fresh "E" in
             destruct v eqn:E;
             [|apply validate_timestamp_raises in E
               || apply validate_int_raises in E
               || apply validate_float_raises in E; congruence]
         end.
  done.
Qed.

(** *** Invariants of the machine *)

Ltac break_step en s :=
  let Hpc := fresh "Hpc" in
  let Hsig := fresh "Hsig" in
  unfold step;
  destruct (at_pc s)
    as [| | |?cp|?cp ?path|?cp ?path|?cp ?path|?cp ?path
        |?cp ?path [| |?raw|?data|?m|?m]| |?ex] eqn:Hpc;
  cbn [terminal];
  [destruct (sigint en (ops s)) eqn:Hsig;
   [unfold interrupt|unfold exec]; cbn [at_pc count_op]; rewrite Hpc ..| |];
  unfold inner_except, raise_in_archive, outer_except, leave, utcnow;
  rewrite ?writeheader_columns, ?writerow_reading, ?record_kwargs_no_timestamp;
  repeat case_match; simpl in *; rewrite ?Hpc in *; simpl in *.

Lemma fs_inv_weaken o m : fs_inv None None m -> fs_inv o None m.
Proof.
  intros Hm p a Hp. destruct (Hm p a Hp) as [Hh Hf]. split; [done|].
  intros E. by specialize (Hf E).
Qed.

Lemma fs_inv_create path m :
  fs_inv None None m ->
  fs_inv (Some path) (Some path) (archive_create path m).
Proof.
  intros Hm p a. unfold archive_create.
  rewrite lookup_insert. case_decide as E.
  - subst p. intros [= <-]. by rewrite decide_True.
  - intros Hp. destruct (Hm p a Hp) as [Hh Hf].
    rewrite decide_False by congruence. split; [done|].
    intros F. by specialize (Hf F).
Qed.

Lemma fs_inv_header path m :
  fs_inv (Some path) (Some path) m ->
  fs_inv (Some path) None (archive_append path header_row m).
Proof.
  intros Hm p a. unfold archive_append. rewrite lookup_alter.
  case_decide as E.
  - subst p. destruct (m !! path) as [a0|] eqn:Hp; simpl; [|done].
    intros [= <-]. simpl. destruct (Hm path a0 Hp) as [Hh Hf].
    rewrite decide_True in Hh by done. rewrite Hh. eauto.
  - intros Hp. destruct (Hm p a Hp) as [Hh Hf].
    by rewrite decide_False in Hh by congruence.
Qed.

Lemma fs_inv_append o path row m :
  fs_inv o None m -> fs_inv o None (archive_append path row m).
Proof.
  intros Hm p a. unfold archive_append. rewrite lookup_alter. case_decide as E.
  - subst p. destruct (m !! path) as [a0|] eqn:Hp; simpl; [|done].
    intros [= <-]. simpl. destruct (Hm path a0 Hp) as [[tl ->] Hf]. eauto.
  - apply Hm.
Qed.

Lemma fs_inv_close path m :
  fs_inv (Some path) None m -> fs_inv None None (archive_close path m).
Proof.
  intros Hm p a. unfold archive_close. rewrite lookup_alter. case_decide as E.
  - subst p. destruct (m !! path) as [a0|] eqn:Hp; simpl; [|done].
    intros [= <-]. simpl. by destruct (Hm path a0 Hp) as [Hh Hf].
  - intros Hp. destruct (Hm p a Hp) as [Hh Hf]. split; [done|].
    intros F. specialize (Hf F). congruence.
Qed.

Lemma fs_stopped_closed m : fs_inv None None m -> fs_stopped m.
Proof.
  intros Hm p a Hp. destruct (Hm p a Hp) as [Hh Hf]. simpl in Hh.
  split; [by right|]. destruct (finalized a); [done|]. by specialize (Hf eq_refl).
Qed.

Lemma fs_stopped_close path h m :
  fs_inv (Some path) h m -> fs_stopped (archive_close path m).
Proof.
  intros Hm p a. unfold archive_close. rewrite lookup_alter. case_decide as E.
  - subst p. destruct (m !! path) as [a0|] eqn:Hp; simpl; [|done].
    intros [= <-]. simpl. destruct (Hm path a0 Hp) as [Hh Hf].
    split; [|done]. case_decide; [by left|by right].
  - intros Hp. destruct (Hm p a Hp) as [Hh Hf]. split.
    + case_decide; [by left|by right].
    + destruct (finalized a); [done|]. specialize (Hf eq_refl). congruence.
Qed.

Lemma inv_fs_step en s : inv_fs s -> inv_fs (step en s).
Proof.
  unfold inv_fs. intros Hs. break_step en s.
  all: simplify_eq/=.
  all: try done.
  all: try (by apply fs_inv_close).
  all: try (by apply fs_inv_append).
  all: try (by apply fs_inv_weaken, fs_inv_close).
  all: try (by apply fs_inv_create).
  all: try (by apply fs_inv_header).
  all: try (by apply fs_stopped_closed).
  all: try (by eapply fs_stopped_close).
Qed.

Lemma inv_fs_run en bytes n : inv_fs (run en n (start bytes)).
Proof.
  apply run_invariant; [|apply inv_fs_step].
  intros p a. unfold start. simpl. by rewrite lookup_empty.
Qed.

Lemma inv_fs_open s p a :
  inv_fs s -> fs s !! p = Some a -> finalized a = false ->
  open_path (at_pc s) = Some p.
Proof.
  unfold inv_fs. intros Hinv Hp Hopen.
  destruct (at_pc s) eqn:Hpc;
    try (by destruct (Hinv p a Hp) as [_ Hf]; apply Hf).
  destruct (Hinv p a Hp) as [_ Hf]. congruence.
Qed.

Lemma inv_fs_rows s p a :
  inv_fs s -> fs s !! p = Some a ->
  (exists tl, rows a = header_row :: tl)
  \/ (rows a = []
      /\ (headerless_path (at_pc s) = Some p
          \/ (at_pc s = PStopped /\ finalized a = true))).
Proof.
  unfold inv_fs. intros Hinv Hp.
  destruct (at_pc s) eqn:Hpc;
    try (destruct (Hinv p a Hp) as [Hh _]; simpl in Hh; by left).
  - destruct (Hinv p a Hp) as [Hh _]. simpl in *.
    case_decide as E; [|by left]. right. split; [done|]. by left.
  - destruct (Hinv p a Hp) as [[Hh|Hh] Hf]; [|by left].
    right. split; [done|]. by right.
Qed.

Ltac raised_exn :=
  repeat match goal with
         | E : SoilHumidity_init _ _ _ = Raise _ |- _ =>
             apply SoilHumidity_init_raises in E
         | E : unpack _ _ _ = Raise _ |- _ => apply unpack_raises in E
         end;
  simplify_eq.

Lemma inv_log_step en s : inv_log s -> inv_log (step en s).
Proof.
  unfold inv_log. intros Hs. break_step en s; raised_exn.
  all: rewrite ?forallb_app, ?Hs; done.
Qed.

Lemma inv_log_run en bytes n : inv_log (run en n (start bytes)).
Proof. apply run_invariant; [done|apply inv_log_step]. Qed.

Lemma inv_stopped_step en s : inv_stopped en s -> inv_stopped en (step en s).
Proof.
  unfold inv_stopped. intros Hs. break_step en s; raised_exn.
  all: try done.
  all: try (intros _; exists (ops s); split; [lia|done]).
Qed.

Lemma inv_stopped_run en bytes n : inv_stopped en (run en n (start bytes)).
Proof. apply run_invariant; [done|apply inv_stopped_step]. Qed.

Lemma ops_step en s : (ops (step en s) <= S (ops s))%nat.
Proof. break_step en s; lia. Qed.

Lemma ops_run en bytes n : (ops (run en n (start bytes)) <= n)%nat.
Proof.
  induction n as [|n IH]; [done|].
  rewrite run_succ. pose proof (ops_step en (run en n (start bytes))). lia.
Qed.

Lemma count_opened_snoc l ev :
  count_opened (l ++ [ev])
  = (count_opened l + if is_opened ev then 1 else 0)%nat.
Proof.
  unfold count_opened. rewrite List.filter_app, length_app. simpl.
  by destruct (is_opened ev).
Qed.

Lemma count_closed_snoc l ev :
  count_closed (l ++ [ev])
  = (count_closed l + if is_closed ev then 1 else 0)%nat.
Proof.
  unfold count_closed. rewrite List.filter_app, length_app. simpl.
  by destruct (is_closed ev).
Qed.

Lemma checkpoint_after_succ t0 (k : nat) :
  Datetime.add (checkpoint_after t0 k) (Datetime.hours 1)
  = checkpoint_after t0 (S k).
Proof.
  unfold checkpoint_after. rewrite DatetimeFacts.add_of_timestamp.
  f_equal. unfold Datetime.hours. lia.
Qed.

Lemma checkpoint_after_0 t0 :
  Datetime.replace_hour_start (Datetime.of_timestamp t0) = checkpoint_after t0 0.
Proof.
  unfold checkpoint_after. rewrite DatetimeFacts.replace_hour_start_of_timestamp.
  f_equal. unfold Datetime.hours. lia.
Qed.

Lemma inv_checkpoint_step en s : inv_checkpoint en s -> inv_checkpoint en (step en s).
Proof.
  unfold inv_checkpoint. intros Hs. break_step en s.
  all: rewrite ?count_opened_snoc, ?count_closed_snoc; simpl.
  all: rewrite ?Nat.add_0_r, ?Nat.add_1_r.
  all: try done.
  all: simplify_eq/=; destruct Hs as [Hcp Hcnt].
  all: try (split; [done|lia]).
  all: try (split; [by rewrite Hcnt, Hcp, checkpoint_after_succ|lia]).
  all: try (split; [by rewrite Hcp, Hcnt|lia]).
  all: try (split; [by rewrite <- Hcnt|lia]).
  rewrite Hcp, Hcnt. split; [apply checkpoint_after_0|done].
Qed.

Lemma inv_checkpoint_run en bytes n : inv_checkpoint en (run en n (start bytes)).
Proof. apply run_invariant; [done|apply inv_checkpoint_step]. Qed.

(** ** The claims on the frame synchronizer *)

Ltac state_fields :=
  cbn [at_pc port ticks ops fs log count_op set_pc set_port set_fs emit start
       utcnow leave raise_in_archive outer_except inner_except].

(** Execute the innermost pending operation of the goal. *)
Ltac exec_step :=
  match goal with
  | |- context [step ?e ?s] =>
      lazymatch s with
      | context [step _ _] => fail
      | _ => rewrite (step_exec e s)
               by (state_fields; first [done|assumption])
      end
  end;
  unfold exec; state_fields.

Lemma sync_run en (noise preamble payload : list byte) :
  ~ contains sync_marker noise ->
  length preamble = preamble_size ->
  sigint en 0 = false -> sigint en 1 = false ->
  run en 2 (start (noise ++ sync_marker ++ preamble ++ payload))
  = {| at_pc := PInit; port := payload; ticks := 0; ops := 2;
       fs := ∅; log := [] |}.
Proof.
  intros Hfree Hlen H0 H1.
  change (run en 2 ?s) with (step en (step en s)).
  exec_step. rewrite read_until_marker by done. state_fields.
  exec_step. by rewrite port_read_app.
Qed.

(** After synchronisation the port is only read by the decoder, 28 bytes
    at a time. *)
Lemma port_step en s :
  in_try (at_pc s) = true ->
  port (step en s) = port s
  \/ exists cp path,
       at_pc s = PLoop cp path LRead
       /\ at_pc (step en s) = PLoop cp path (LUnpack (take record_size (port s)))
       /\ port (step en s) = drop record_size (port s).
Proof.
  intros Htry. break_step en s; try discriminate; auto.
  all: match goal with
       | E : port_read _ _ _ = ReadOk _ _ |- _ =>
           unfold port_read in E; repeat case_match; simplify_eq
       end.
  all: right; eexists _, _; split; [done|].
  - done.
  - match goal with
    | E : (_ <=? _)%nat = false |- _ => apply Nat.leb_gt in E
    end.
    by rewrite take_ge, drop_ge by lia.
Qed.

Lemma in_try_step en s :
  in_try (at_pc s) = true ->
  in_try (at_pc (step en s)) = true \/ terminal (at_pc (step en s)) = true.
Proof. intros Htry. break_step en s; auto. Qed.

Lemma terminal_run en s n :
  terminal (at_pc s) = true -> run en n s = s.
Proof.
  intros Ht. induction n as [|n IH]; [done|].
  simpl. by rewrite step_terminal.
Qed.

(** From a state inside the [try] block: either the port is untouched
    after [n] operations, or its first change was a read of the decoder
    that took the first 28 pending bytes. *)
Lemma first_read en s n :
  in_try (at_pc s) = true ->
  port (run en n s) = port s
  \/ exists m cp path,
       (m < n)%nat
       /\ port (run en m s) = port s
       /\ at_pc (run en m s) = PLoop cp path LRead
       /\ at_pc (run en (S m) s) = PLoop cp path (LUnpack (take record_size (port s)))
       /\ port (run en (S m) s) = drop record_size (port s).
Proof.
  intros Htry. induction n as [|n IH]; [by left|].
  destruct IH as [Hsame|(m & cp & path & Hm & H1 & H2 & H3 & H4)].
  - assert (Hcase : in_try (at_pc (run en n s)) = true
                    \/ terminal (at_pc (run en n s)) = true).
    { clear Hsame. induction n as [|n IHn]; [by left|].
      rewrite run_succ. destruct IHn as [Hin|Hterm].
      - by apply in_try_step.
      - right. by rewrite step_terminal. }
    rewrite run_succ. destruct Hcase as [Hin|Hterm].
    + destruct (port_step en _ Hin) as [Hp|(cp & path & Hpc & Hpc' & Hp)].
      * left. congruence.
      * right. exists n, cp, path. rewrite run_succ, <- Hsame. auto.
    + left. by rewrite step_terminal.
  - right. exists m, cp, path. auto.
Qed.

(** C3 (as amended): when the noise before the sync marker does not itself
    contain the marker, the synchronizer consumes exactly the noise, the
    marker and the 22 bytes of the preamble; nothing else touches the port
    before the decoder, whose first read takes the bytes that follow the
    preamble. *)
Theorem frame_sync_consumes_prefix en (noise preamble payload : list byte) :
  ~ contains sync_marker noise ->
  length preamble = preamble_size ->
  sigint en 0 = false -> sigint en 1 = false ->
  let s := run en 2 (start (noise ++ sync_marker ++ preamble ++ payload)) in
  at_pc s = PInit
  /\ port s = payload
  /\ forall n,
       port (run en n s) = payload
       \/ exists m cp path,
            (m < n)%nat
            /\ port (run en m s) = payload
            /\ at_pc (run en m s) = PLoop cp path LRead
            /\ at_pc (run en (S m) s)
               = PLoop cp path (LUnpack (take record_size payload))
            /\ port (run en (S m) s) = drop record_size payload.
Proof.
  intros Hfree Hlen H0 H1. rewrite sync_run by done. cbn zeta.
  split; [done|]. split; [done|]. intros n.
  by apply (first_read en {| at_pc := PInit; port := payload; ticks := 0;
                             ops := 2; fs := ∅; log := [] |} n).
Qed.

Lemma frame_sync_consumes_prefix_witness :
  ~ contains sync_marker [x00; x9a; x16]
  /\ length sample_preamble = preamble_size
  /\ sigint sample_env 0 = false /\ sigint sample_env 1 = false
  /\ port (run sample_env 2 (start sample_input))
     = sample_record ++ sample_record ++ [x00].
Proof.
  assert (Hfree : ~ contains sync_marker [x00; x9a; x16]).
  { intros (a & b & E). apply (f_equal length) in E.
    rewrite !length_app in E. simpl in E. lia. }
  split; [exact Hfree|]. do 3 (split; [reflexivity|]).
  exact (proj1 (proj2 (frame_sync_consumes_prefix sample_env [x00; x9a; x16]
                         sample_preamble (sample_record ++ sample_record ++ [x00])
                         Hfree eq_refl eq_refl eq_refl))).
Defined.

(** C3 as stated fails: when the noise contains the marker, the
    synchronizer stops at that first occurrence and the 22 bytes it then
    discards are not the preamble. *)
Lemma frame_sync_marker_in_noise :
  ~ (forall en (noise preamble payload : list byte),
       length preamble = preamble_size ->
       sigint en 0 = false -> sigint en 1 = false ->
       port (run en 2 (start (noise ++ sync_marker ++ preamble ++ payload)))
       = payload).
Proof.
  intros Hall.
  specialize (Hall sample_env sync_marker sample_preamble sample_record
                eq_refl eq_refl eq_refl).
  vm_compute in Hall. discriminate Hall.
Qed.

Example frame_sync_marker_in_noise_port :
  port (run sample_env 2
          (start (sync_marker ++ sync_marker ++ sample_preamble ++ sample_record)))
  = [x11; x12; x13; x14; x15; x16] ++ sample_record.
Proof. vm_compute. reflexivity. Qed.

Lemma decoder_layout_witness :
  length sample_record = record_size
  /\ decode_record LittleEndian sample_coercions (Datetime.of_timestamp 0)
       sample_record
     = Ok {| timestamp := Datetime.of_timestamp 0;
             potId := Some 4; airLevel := Some 5; waterLevel := Some 6;
             soilHumidity := Some 7; soilHumidityPercent := Some 264;
             airTemperature := Some (F32 1065353216);
             airHumidity := Some (F32 1073741824);
             heatIndex := Some (F32 1077936128) |}.
Proof.
  split; [reflexivity|].
  exact (proj1 (proj2 (proj2
           (decoder_layout LittleEndian sample_coercions Blocks
              (Datetime.of_timestamp 0) sample_record [] eq_refl)))).
Defined.

(** ** The claims on the rotation scheduler *)

Lemma truncate_to_hour_bounds t :
  truncate_to_hour t <= t < truncate_to_hour t + Datetime.hours 1.
Proof.
  unfold truncate_to_hour, Datetime.hours. DatetimeFacts.unfold_units.
  DatetimeFacts.euclid.
Qed.

Lemma truncate_to_hour_aligned t :
  t mod Datetime.us_per_hour = 0 -> truncate_to_hour t = t.
Proof.
  unfold truncate_to_hour. DatetimeFacts.unfold_units. DatetimeFacts.euclid.
Qed.

Lemma step_loop_test en cp path b t o m lg :
  sigint en o = false ->
  step en {| at_pc := PLoop cp path LTest; port := b; ticks := t; ops := o;
             fs := m; log := lg |}
  = if Datetime.ltb (Datetime.of_timestamp (clock en t)) cp
    then {| at_pc := PLoop cp path LRead; port := b; ticks := S t; ops := S o;
            fs := m; log := lg |}
    else {| at_pc := POpen cp; port := b; ticks := S t; ops := S o;
            fs := archive_close path m;
            log := lg ++ [Closed path (archive_rows path (archive_close path m))] |}.
Proof. intros Hsig. exec_step. by case_match. Qed.

(** C2: while an archive is open after [N] rotations, the checkpoint is
    the startup time [t] truncated to its hour plus [N + 1] hours, also
    when [t] is on an hour boundary; the rotation check closes the archive
    exactly when the current time has reached the checkpoint. *)
Theorem rotation_checkpoint en bytes n cp path l :
  let s := run en n (start bytes) in
  let t := clock en 0 in
  at_pc s = PLoop cp path l ->
  exists N : nat,
    count_closed (log s) = N /\ count_opened (log s) = S N
    /\ cp = Datetime.of_timestamp
              (truncate_to_hour t + Datetime.hours (Z.of_nat N + 1))
    /\ truncate_to_hour t <= t < truncate_to_hour t + Datetime.hours 1
    /\ (t mod Datetime.us_per_hour = 0 -> truncate_to_hour t = t)
    /\ (l = LTest -> sigint en (ops s) = false ->
        let now := clock en (ticks s) in
        let deadline := truncate_to_hour t + Datetime.hours (Z.of_nat N + 1) in
        (deadline <= now ->
         at_pc (step en s) = POpen cp
         /\ count_closed (log (step en s)) = S N)
        /\ (now < deadline -> at_pc (step en s) = PLoop cp path LRead)).
Proof.
  intros s t Hpc.
  pose proof (inv_checkpoint_run en bytes n) as Hinv.
  fold s in Hinv. unfold inv_checkpoint in Hinv. rewrite Hpc in Hinv.
  destruct Hinv as [Hcp Hcnt].
  exists (count_closed (log s)).
  split; [done|]. split; [done|].
  assert (Hcp' : cp = Datetime.of_timestamp
                        (truncate_to_hour t
                         + Datetime.hours (Z.of_nat (count_closed (log s)) + 1))).
  { rewrite Hcp, Hcnt. unfold checkpoint_after. fold t. f_equal. f_equal.
    f_equal. lia. }
  split; [done|].
  split; [apply truncate_to_hour_bounds|].
  split; [apply truncate_to_hour_aligned|].
  intros -> Hsig now deadline.
  destruct s as [p b tk o m lg] eqn:Hs. simpl in Hpc, Hsig, Hcp'. subst p.
  rewrite step_loop_test by done. subst now deadline. cbn [ticks log].
  assert (Hltb : Datetime.ltb (Datetime.of_timestamp (clock en tk)) cp
                 = (clock en tk <? truncate_to_hour t
                      + Datetime.hours (Z.of_nat (count_closed lg) + 1))).
  { rewrite Hcp'. apply DatetimeFacts.ltb_of_timestamp. }
  rewrite Hltb.
  destruct (Z.ltb_spec (clock en tk)
              (truncate_to_hour t
               + Datetime.hours (Z.of_nat (count_closed lg) + 1))) as [Hlt|Hge];
    cbn [at_pc log]; (split; intros Hnow; [|lia || done]).
  - lia.
  - split; [done|]. rewrite count_closed_snoc. simpl. lia.
Qed.

Lemma rotation_checkpoint_witness :
  at_pc (run sample_env 8 (start sample_input))
  = PLoop (Datetime.of_timestamp 1714568400000000)
      "/home/pi/.garden/metrics/pots/humidity/2024-05-01/12-34-25.zip" LTest
  /\ exists N : nat,
       count_closed (log (run sample_env 8 (start sample_input))) = N
       /\ Datetime.of_timestamp 1714568400000000
          = Datetime.of_timestamp
              (truncate_to_hour (clock sample_env 0)
               + Datetime.hours (Z.of_nat N + 1)).
Proof.
  assert (Hpc : at_pc (run sample_env 8 (start sample_input))
                = PLoop (Datetime.of_timestamp 1714568400000000)
                    "/home/pi/.garden/metrics/pots/humidity/2024-05-01/12-34-25.zip"
                    LTest) by (vm_compute; reflexivity).
  split; [exact Hpc|].
  destruct (rotation_checkpoint sample_env sample_input 8 _ _ _ Hpc)
    as (N & HN & _ & Hcp & _).
  exists N. split; [exact HN|exact Hcp].
Defined.

(** Started at 12:17:45, the first archive is rotated at 13:00:00. *)
Example rotation_boundary_12_17_45 :
  checkpoint_of (at_pc (run sample_env 8 (start sample_input)))
  = Some {| Datetime.ordinal := 739007; Datetime.hour := 13;
            Datetime.minute := 0; Datetime.second := 0;
            Datetime.microsecond := 0 |}.
Proof. vm_compute. reflexivity. Qed.

(** Started at 12:00:00, the first archive is rotated at 13:00:00 too. *)
Example rotation_boundary_12_00_00 :
  Datetime.of_timestamp (clock on_the_hour_env 0)
  = {| Datetime.ordinal := 739007; Datetime.hour := 12;
       Datetime.minute := 0; Datetime.second := 0;
       Datetime.microsecond := 0 |}
  /\ checkpoint_of (at_pc (run on_the_hour_env 8 (start sample_input)))
     = Some {| Datetime.ordinal := 739007; Datetime.hour := 13;
               Datetime.minute := 0; Datetime.second := 0;
               Datetime.microsecond := 0 |}.
Proof. split; vm_compute; reflexivity. Qed.

(** ** The claims on the archive writer *)

(** C4 (as amended): in every archive the run has opened, the first row
    of [metrics.csv] is the row of the nine field names, whatever was
    appended after it; [metrics.csv] holds no row at all only between the
    creation of the archive and the writing of its header, or in the
    finalized archive that an interrupt at that point leaves behind. *)
Theorem archive_header_fixed en bytes n p a :
  fs (run en n (start bytes)) !! p = Some a ->
  (exists data_rows,
     rows a
     = [CStr "timestamp"; CStr "potId"; CStr "airLevel"; CStr "waterLevel";
        CStr "soilHumidity"; CStr "soilHumidityPercent"; CStr "airTemperature";
        CStr "airHumidity"; CStr "heatIndex"] :: data_rows)
  \/ (rows a = []
      /\ ((exists cp, at_pc (run en n (start bytes)) = PHeader cp p)
          \/ (at_pc (run en n (start bytes)) = PStopped
              /\ finalized a = true
              /\ exists i, (i < n)%nat /\ sigint en i = true))).
Proof.
  intros Hp.
  destruct (inv_fs_rows _ p a (inv_fs_run en bytes n) Hp)
    as [Hhead|[Hnone [Hopening|[Hstop Hfin]]]].
  - by left.
  - right. split; [done|]. left.
    destruct (at_pc (run en n (start bytes))); try discriminate Hopening.
    simpl in Hopening. injection Hopening as ->. eauto.
  - right. split; [done|]. right. split; [done|]. split; [done|].
    destruct (inv_stopped_run en bytes n Hstop) as (i & Hi & Hsig).
    exists i. split; [|done]. pose proof (ops_run en bytes n). lia.
Qed.

Lemma archive_header_fixed_witness :
  fs (run sample_env 15 (start sample_input))
    !! "/home/pi/.garden/metrics/pots/humidity/2024-05-01/12-34-25.zip"
  = Some {| rows := [header_row;
                     reading_row LittleEndian
                       (Datetime.of_timestamp (clock sample_env 3))
                       sample_record];
            finalized := true |}
  /\ ((exists data_rows,
         [header_row;
          reading_row LittleEndian (Datetime.of_timestamp (clock sample_env 3))
            sample_record]
         = [CStr "timestamp"; CStr "potId"; CStr "airLevel"; CStr "waterLevel";
            CStr "soilHumidity"; CStr "soilHumidityPercent";
            CStr "airTemperature"; CStr "airHumidity"; CStr "heatIndex"]
           :: data_rows)
      \/ reading_row LittleEndian (Datetime.of_timestamp (clock sample_env 3))
           sample_record = []).
Proof.
  assert (Hp : fs (run sample_env 15 (start sample_input))
                 !! "/home/pi/.garden/metrics/pots/humidity/2024-05-01/12-34-25.zip"
               = Some {| rows := [header_row;
                                  reading_row LittleEndian
                                    (Datetime.of_timestamp (clock sample_env 3))
                                    sample_record];
                         finalized := true |})
    by (vm_compute; reflexivity).
  split; [exact Hp|].
  destruct (archive_header_fixed sample_env sample_input 15 _ _ Hp)
    as [Hhead|[Hnone _]].
  - left. exact Hhead.
  - discriminate Hnone.
Defined.

(** C4 as stated fails: an interrupt between the creation of the archive
    (line 96) and the writing of its header (line 100) leaves a finalized
    archive whose [metrics.csv] has no row. *)
Lemma archive_without_header :
  ~ (forall en bytes n p a,
       fs (run en n (start bytes)) !! p = Some a ->
       exists data_rows,
         rows a
         = [CStr "timestamp"; CStr "potId"; CStr "airLevel"; CStr "waterLevel";
            CStr "soilHumidity"; CStr "soilHumidityPercent";
            CStr "airTemperature"; CStr "airHumidity"; CStr "heatIndex"]
           :: data_rows).
Proof.
  intros Hall.
  assert (Hp : fs (run interrupted_open_env 7 (start sample_input))
                 !! "/home/pi/.garden/metrics/pots/humidity/2024-05-01/12-34-25.zip"
               = Some {| rows := []; finalized := true |})
    by (vm_compute; reflexivity).
  destruct (Hall _ _ _ _ _ Hp) as [data_rows Hrows]. discriminate Hrows.
Qed.

Example archive_without_header_run :
  at_pc (run interrupted_open_env 7 (start sample_input)) = PStopped
  /\ map_to_list (fs (run interrupted_open_env 7 (start sample_input)))
     = [("/home/pi/.garden/metrics/pots/humidity/2024-05-01/12-34-25.zip",
         {| rows := []; finalized := true |})]
  /\ log (run interrupted_open_env 7 (start sample_input))
     = [PrintWriting
          "/home/pi/.garden/metrics/pots/humidity/2024-05-01/12-34-25.zip";
        Opened "/home/pi/.garden/metrics/pots/humidity/2024-05-01/12-34-25.zip";
        Closed "/home/pi/.garden/metrics/pots/humidity/2024-05-01/12-34-25.zip"
          []].
Proof. repeat split; vm_compute; reflexivity. Qed.

(** ** The claims on interrupts and errors *)

Lemma terminal_all_finalized s :
  inv_fs s -> terminal (at_pc s) = true -> all_finalized (fs s).
Proof.
  unfold inv_fs. intros Hinv Hterm p a Hp.
  destruct (at_pc s); try discriminate Hterm.
  - by destruct (Hinv p a Hp) as [_ Hfin].
  - destruct (Hinv p a Hp) as [_ Hopen].
    destruct (finalized a); [done|]. by specialize (Hopen eq_refl).
Qed.

Lemma step_interrupt_in_try en s :
  in_try (at_pc s) = true -> sigint en (ops s) = true ->
  at_pc (step en s) = PStopped
  /\ port (step en s) = port s
  /\ ticks (step en s) = ticks s
  /\ fs (step en s) = match open_path (at_pc s) with
                      | Some p => archive_close p (fs s)
                      | None => fs s
                      end.
Proof.
  intros Htry Hsig. rewrite step_interrupt by (done || by destruct (at_pc s)).
  unfold interrupt. state_fields.
  by destruct (at_pc s) as [| | | | | | | |cp path []| |].
Qed.

(** C6: an interrupt inside the [try] block stops the run with every
    archive closed; whenever the process has exited its archives are
    closed; and the run only stops gracefully if it was interrupted. *)
Theorem interrupt_graceful_shutdown en bytes n :
  let s := run en n (start bytes) in
  (in_try (at_pc s) = true -> sigint en (ops s) = true ->
   at_pc (step en s) = PStopped /\ all_finalized (fs (step en s)))
  /\ (terminal (at_pc s) = true -> all_finalized (fs s))
  /\ (at_pc s = PStopped -> exists i, (i < n)%nat /\ sigint en i = true).
Proof.
  intros s. split; [|split].
  - intros Htry Hsig.
    destruct (step_interrupt_in_try en s Htry Hsig) as (Hpc & _).
    split; [done|]. apply terminal_all_finalized.
    + apply inv_fs_step, inv_fs_run.
    + by rewrite Hpc.
  - apply terminal_all_finalized, inv_fs_run.
  - intros Hpc. destruct (inv_stopped_run en bytes n Hpc) as (i & Hi & Hsig).
    exists i. split; [|done]. pose proof (ops_run en bytes n) as Hops.
    unfold s in Hi. lia.
Qed.

Lemma interrupt_graceful_shutdown_witness :
  in_try (at_pc (run interrupted_env 9 (start sample_input))) = true
  /\ sigint interrupted_env (ops (run interrupted_env 9 (start sample_input)))
     = true
  /\ at_pc (step interrupted_env (run interrupted_env 9 (start sample_input)))
     = PStopped
  /\ all_finalized
       (fs (step interrupted_env (run interrupted_env 9 (start sample_input)))).
Proof.
  assert (Htry : in_try (at_pc (run interrupted_env 9 (start sample_input)))
                 = true) by (vm_compute; reflexivity).
  assert (Hsig : sigint interrupted_env
                   (ops (run interrupted_env 9 (start sample_input))) = true)
    by (vm_compute; reflexivity).
  split; [exact Htry|]. split; [exact Hsig|].
  exact (proj1 (interrupt_graceful_shutdown interrupted_env sample_input 9)
           Htry Hsig).
Defined.

(** ** The operations one by one *)

Lemma step_init en b t o m lg :
  sigint en o = false ->
  step en {| at_pc := PInit; port := b; ticks := t; ops := o; fs := m;
             log := lg |}
  = {| at_pc := POpen (Datetime.replace_hour_start
                         (Datetime.of_timestamp (clock en t)));
       port := b; ticks := S t; ops := S o; fs := m; log := lg |}.
Proof. intros Hsig. by exec_step. Qed.

(** The five operations that open an archive. *)
Lemma run_open en cp b t o m lg :
  (forall j, (j < 5)%nat -> sigint en (o + j) = false) ->
  let path := archive_path (home en) (Datetime.of_timestamp (clock en t)) in
  run en 5 {| at_pc := POpen cp; port := b; ticks := t; ops := o; fs := m;
              log := lg |}
  = {| at_pc := PLoop (Datetime.add cp (Datetime.hours 1)) path LTest;
       port := b; ticks := S t; ops := 5 + o;
       fs := archive_append path header_row (archive_create path m);
       log := lg ++ open_events en path |}.
Proof.
  intros Hsig path.
  pose proof (Hsig 0%nat ltac:(lia)) as H0. rewrite Nat.add_0_r in H0.
  pose proof (Hsig 1%nat ltac:(lia)) as H1. rewrite Nat.add_1_r in H1.
  pose proof (Hsig 2%nat ltac:(lia)) as H2.
  replace (o + 2)%nat with (S (S o)) in H2 by lia.
  pose proof (Hsig 3%nat ltac:(lia)) as H3.
  replace (o + 3)%nat with (S (S (S o))) in H3 by lia.
  pose proof (Hsig 4%nat ltac:(lia)) as H4.
  replace (o + 4)%nat with (S (S (S (S o)))) in H4 by lia.
  cbn [run]. exec_step. fold path. unfold set_pc. state_fields.
  exec_step. unfold set_pc. state_fields.
  assert (Hprint : forall s : state,
            at_pc (if quiet en then s else emit (PrintWriting path) s) = at_pc s
            /\ port (if quiet en then s else emit (PrintWriting path) s) = port s
            /\ ticks (if quiet en then s else emit (PrintWriting path) s)
               = ticks s
            /\ ops (if quiet en then s else emit (PrintWriting path) s) = ops s
            /\ fs (if quiet en then s else emit (PrintWriting path) s) = fs s
            /\ log (if quiet en then s else emit (PrintWriting path) s)
               = log s ++ (if quiet en then [] else [PrintWriting path]))
    by (intros s; destruct (quiet en); simpl; by rewrite ?app_nil_r).
  match goal with
  | |- context [if quiet en then ?s else _] =>
      destruct (Hprint s) as (_ & -> & -> & -> & -> & ->)
  end.
  state_fields.
  exec_step. unfold set_pc, set_fs, emit. state_fields.
  exec_step. rewrite writeheader_columns. unfold set_pc, set_fs. state_fields.
  exec_step. unfold set_pc. state_fields.
  unfold open_events. by rewrite <- app_assoc.
Qed.

Lemma step_read en cp path (raw rest : list byte) t o m lg :
  sigint en o = false ->
  length raw = record_size ->
  step en {| at_pc := PLoop cp path LRead; port := raw ++ rest; ticks := t;
             ops := o; fs := m; log := lg |}
  = {| at_pc := PLoop cp path (LUnpack raw); port := rest; ticks := t;
       ops := S o; fs := m; log := lg |}.
Proof. intros Hsig Hlen. exec_step. by rewrite port_read_app. Qed.

Lemma step_unpack en cp path (raw b : list byte) t o m lg :
  sigint en o = false ->
  step en {| at_pc := PLoop cp path (LUnpack raw); port := b; ticks := t;
             ops := o; fs := m; log := lg |}
  = match unpack (byte_order en) record_format raw with
    | Ok data =>
        {| at_pc := PLoop cp path (LBuild data); port := b; ticks := t;
           ops := S o; fs := m; log := lg |}
    | Raise ex =>
        {| at_pc := PCrashed ex; port := b; ticks := t; ops := S o;
           fs := archive_close path m;
           log := lg ++ [Closed path (archive_rows path (archive_close path m))] |}
    end.
Proof.
  intros Hsig. exec_step.
  destruct (unpack _ _ _) as [data|ex] eqn:E; [done|].
  apply unpack_raises in E. by subst ex.
Qed.

Lemma step_build en cp path data (b : list byte) t o m lg :
  sigint en o = false ->
  step en {| at_pc := PLoop cp path (LBuild data); port := b; ticks := t;
             ops := o; fs := m; log := lg |}
  = match SoilHumidity_init (pydantic en)
            (Datetime.of_timestamp (clock en t)) (record_kwargs data) with
    | Ok r =>
        {| at_pc := PLoop cp path (LWrite r); port := b; ticks := S t;
           ops := S o; fs := m; log := lg |}
    | Raise ex =>
        {| at_pc := PCrashed ex; port := b; ticks := S t; ops := S o;
           fs := archive_close path m;
           log := lg ++ [Closed path (archive_rows path (archive_close path m))] |}
    end.
Proof.
  intros Hsig. exec_step. rewrite record_kwargs_no_timestamp.
  destruct (SoilHumidity_init _ _ _) as [r|ex] eqn:E; [done|].
  apply SoilHumidity_init_raises in E. by subst ex.
Qed.

Lemma step_write en cp path r (b : list byte) t o m lg :
  sigint en o = false ->
  step en {| at_pc := PLoop cp path (LWrite r); port := b; ticks := t;
             ops := o; fs := m; log := lg |}
  = {| at_pc := PLoop cp path (LPrint r); port := b; ticks := t; ops := S o;
       fs := archive_append path
               [CDatetime (timestamp r);
                opt_cell CInt (potId r); opt_cell CInt (airLevel r);
                opt_cell CInt (waterLevel r); opt_cell CInt (soilHumidity r);
                opt_cell CInt (soilHumidityPercent r);
                opt_cell CFloat (airTemperature r);
                opt_cell CFloat (airHumidity r);
                opt_cell CFloat (heatIndex r)] m;
       log := lg |}.
Proof. intros Hsig. exec_step. by rewrite writerow_reading. Qed.

Lemma step_print en cp path r (b : list byte) t o m lg :
  sigint en o = false ->
  step en {| at_pc := PLoop cp path (LPrint r); port := b; ticks := t;
             ops := o; fs := m; log := lg |}
  = {| at_pc := PLoop cp path LTest; port := b; ticks := t; ops := S o;
       fs := m;
       log := lg ++ (if verbose en then [PrintReading r] else []) |}.
Proof.
  intros Hsig. exec_step.
  destruct (verbose en); state_fields; [done|]. by rewrite app_nil_r.
Qed.

(** One pass of the per-reading loop on a whole wire record: the test,
    the read, the unpacking, the construction, the append and the
    message. *)
Lemma loop_iteration en cp path (raw rest : list byte) t o m lg :
  (forall j, (j < 6)%nat -> sigint en (o + j) = false) ->
  length raw = record_size ->
  Datetime.ltb (Datetime.of_timestamp (clock en t)) cp = true ->
  run en 6 {| at_pc := PLoop cp path LTest; port := raw ++ rest; ticks := t;
              ops := o; fs := m; log := lg |}
  = {| at_pc := PLoop cp path LTest; port := rest; ticks := S (S t);
       ops := 6 + o;
       fs := archive_append path
               (reading_row (byte_order en)
                  (Datetime.of_timestamp (clock en (S t))) raw) m;
       log := lg ++ (if verbose en
                     then [PrintReading
                             (reading_of (byte_order en)
                                (Datetime.of_timestamp (clock en (S t))) raw)]
                     else []) |}.
Proof.
  intros Hsig Hlen Hlt.
  pose proof (Hsig 0%nat ltac:(lia)) as H0. rewrite Nat.add_0_r in H0.
  pose proof (Hsig 1%nat ltac:(lia)) as H1. rewrite Nat.add_1_r in H1.
  pose proof (Hsig 2%nat ltac:(lia)) as H2.
  replace (o + 2)%nat with (S (S o)) in H2 by lia.
  pose proof (Hsig 3%nat ltac:(lia)) as H3.
  replace (o + 3)%nat with (S (S (S o))) in H3 by lia.
  pose proof (Hsig 4%nat ltac:(lia)) as H4.
  replace (o + 4)%nat with (S (S (S (S o)))) in H4 by lia.
  pose proof (Hsig 5%nat ltac:(lia)) as H5.
  replace (o + 5)%nat with (S (S (S (S (S o))))) in H5 by lia.
  cbn [run].
  rewrite step_loop_test by done. rewrite Hlt.
  rewrite step_read by done.
  rewrite step_unpack by done. rewrite unpack_record by done.
  rewrite step_build by done.
  change (SoilHumidity_init (pydantic en) ?now (record_kwargs _))
    with (Ok (reading_of (byte_order en) now raw)).
  cbv beta iota. rewrite step_write by done. by rewrite step_print by done.
Qed.

Lemma record_rows_length en t recs :
  length (record_rows en t recs) = length recs.
Proof. revert t. induction recs as [|raw recs IH]; intros t; simpl; auto. Qed.

Lemma archive_append_all_lookup path (new : list (list cell)) :
  forall (m : filesystem) old fl,
    m !! path = Some {| rows := old; finalized := fl |} ->
    foldl (fun m row => archive_append path row m) m new !! path
    = Some {| rows := old ++ new; finalized := fl |}.
Proof.
  induction new as [|row new IH]; intros m old fl Hm; simpl.
  - by rewrite app_nil_r.
  - rewrite (IH _ (old ++ [row]) fl); [by rewrite <- app_assoc|].
    unfold archive_append. rewrite lookup_alter, decide_True by done.
    by rewrite Hm.
Qed.

(** The per-reading loop over the wire records [recs], all of which arrive
    before the checkpoint. *)
Lemma loop_records en cp path (recs : list (list byte)) :
  forall (rest : list byte) t o m lg,
    (forall j, (j < 6 * length recs)%nat -> sigint en (o + j) = false) ->
    Forall (fun raw => length raw = record_size) recs ->
    (forall i, (i < length recs)%nat ->
       Datetime.ltb (Datetime.of_timestamp (clock en (t + 2 * i))) cp = true) ->
    run en (6 * length recs)
      {| at_pc := PLoop cp path LTest; port := concat recs ++ rest; ticks := t;
         ops := o; fs := m; log := lg |}
    = {| at_pc := PLoop cp path LTest; port := rest;
         ticks := t + 2 * length recs; ops := o + 6 * length recs;
         fs := foldl (fun m row => archive_append path row m) m
                 (record_rows en t recs);
         log := lg ++ record_prints en t recs |}.
Proof.
  induction recs as [|raw recs IH]; intros rest t o m lg Hsig Hlen Hlt.
  - simpl. by rewrite !Nat.add_0_r, app_nil_r.
  - apply Forall_cons in Hlen as [Hraw Hlen].
    replace (6 * length (raw :: recs))%nat with (6 + 6 * length recs)%nat
      by (simpl; lia).
    rewrite run_add. cbn [concat]. rewrite <- app_assoc.
    rewrite loop_iteration; [|intros j Hj; apply Hsig; simpl; lia|done|].
    2:{ specialize (Hlt 0%nat ltac:(simpl; lia)).
        by rewrite Nat.mul_0_r, Nat.add_0_r in Hlt. }
    rewrite IH; [|intros j Hj|done|intros i Hi].
    + cbn [record_rows record_prints foldl length]. f_equal; [lia|lia|].
      by rewrite <- app_assoc.
    + replace (6 + o + j)%nat with (o + (6 + j))%nat by lia.
      apply Hsig. simpl. lia.
    + replace (S (S t) + 2 * i)%nat with (t + 2 * S i)%nat by lia.
      apply Hlt. simpl. lia.
Qed.

(** C5: when [N] wire records arrive and are decoded before the first
    rotation, the archive closed by that rotation holds the header row
    followed by one row per record, in the order of arrival. *)
Theorem rows_before_first_rotation en (noise preamble rest : list byte)
    (recs : list (list byte)) :
  ~ contains sync_marker noise ->
  length preamble = preamble_size ->
  Forall (fun raw => length raw = record_size) recs ->
  (forall i, sigint en i = false) ->
  let N := length recs in
  let deadline := truncate_to_hour (clock en 0) + Datetime.hours 1 in
  (forall i, (i < N)%nat -> clock en (2 + 2 * i) < deadline) ->
  deadline <= clock en (2 + 2 * N) ->
  let s := run en (6 * N + 9)
             (start (noise ++ sync_marker ++ preamble ++ concat recs ++ rest)) in
  let path := archive_path (home en) (Datetime.of_timestamp (clock en 1)) in
  at_pc s = POpen (Datetime.of_timestamp deadline)
  /\ port s = rest
  /\ exists a,
       fs s !! path = Some a
       /\ finalized a = true
       /\ rows a = header_row :: record_rows en 2 recs
       /\ length (rows a) = S N.
Proof.
  intros Hfree Hpre Hlen Hsig N deadline Hbefore Hafter s path.
  assert (Hs : s = {| at_pc := POpen (Datetime.of_timestamp deadline);
                      port := rest; ticks := S (2 + 2 * N); ops := S (8 + 6 * N);
                      fs := archive_close path
                              (foldl (fun m row => archive_append path row m)
                                 (archive_append path header_row
                                    (archive_create path ∅))
                                 (record_rows en 2 recs));
                      log := ([] ++ open_events en path)
                             ++ record_prints en 2 recs
                             ++ [Closed path
                                   (archive_rows path
                                      (archive_close path
                                         (foldl (fun m row =>
                                                   archive_append path row m)
                                            (archive_append path header_row
                                               (archive_create path ∅))
                                            (record_rows en 2 recs))))] |}).
  { unfold s.
    replace (6 * N + 9)%nat with (2 + (1 + (5 + (6 * N + 1))))%nat by lia.
    rewrite run_add, sync_run by done.
    rewrite run_add. cbn [run]. rewrite step_init by done.
    rewrite run_add, run_open by done. cbv zeta. fold path.
    rewrite DatetimeFacts.replace_hour_start_of_timestamp,
      DatetimeFacts.add_of_timestamp. fold deadline.
    rewrite run_add. unfold N.
    rewrite loop_records; [|done|done|].
    2:{ intros i Hi. rewrite DatetimeFacts.ltb_of_timestamp.
        apply Z.ltb_lt. by apply Hbefore. }
    cbn [run]. rewrite step_loop_test by done.
    rewrite DatetimeFacts.ltb_of_timestamp.
    rewrite (proj2 (Z.ltb_ge _ _)) by (apply Hafter).
    rewrite <- (app_assoc _ (record_prints en 2 recs)).
    f_equal; lia. }
  rewrite Hs. cbn [at_pc port fs].
  split; [done|]. split; [done|].
  exists {| rows := header_row :: record_rows en 2 recs; finalized := true |}.
  split.
  - unfold archive_close at 1. rewrite lookup_alter, decide_True by done.
    rewrite (archive_append_all_lookup path _ _ [header_row] false).
    + done.
    + unfold archive_append, archive_create.
      rewrite lookup_alter, decide_True by done. by rewrite lookup_insert_eq.
  - cbn [rows finalized]. split; [done|]. split; [done|].
    simpl. by rewrite record_rows_length.
Qed.

Lemma rows_before_first_rotation_witness :
  ~ contains sync_marker [x00; x9a; x16]
  /\ length sample_preamble = preamble_size
  /\ Forall (fun raw => length raw = record_size) [sample_record]
  /\ (forall i, sigint sample_env i = false)
  /\ (forall i, (i < 1)%nat ->
        clock sample_env (2 + 2 * i)
        < truncate_to_hour (clock sample_env 0) + Datetime.hours 1)
  /\ truncate_to_hour (clock sample_env 0) + Datetime.hours 1
     <= clock sample_env (2 + 2 * 1)
  /\ exists a,
       fs (run sample_env 15 (start sample_input))
         !! archive_path (home sample_env)
              (Datetime.of_timestamp (clock sample_env 1))
       = Some a
       /\ finalized a = true
       /\ rows a = header_row :: record_rows sample_env 2 [sample_record]
       /\ length (rows a) = 2%nat.
Proof.
  assert (Hfree : ~ contains sync_marker [x00; x9a; x16]).
  { intros (a & b & E). apply (f_equal length) in E.
    rewrite !length_app in E. simpl in E. lia. }
  assert (Hlen : Forall (fun raw => length raw = record_size) [sample_record])
    by (repeat constructor).
  assert (Hsig : forall i, sigint sample_env i = false) by reflexivity.
  assert (Hbefore : forall i, (i < 1)%nat ->
            clock sample_env (2 + 2 * i)
            < truncate_to_hour (clock sample_env 0) + Datetime.hours 1).
  { intros i Hi. replace i with 0%nat by lia. vm_compute. reflexivity. }
  assert (Hafter : truncate_to_hour (clock sample_env 0) + Datetime.hours 1
                   <= clock sample_env (2 + 2 * 1))
    by (vm_compute; discriminate).
  split; [exact Hfree|]. split; [reflexivity|]. split; [exact Hlen|].
  split; [exact Hsig|]. split; [exact Hbefore|]. split; [exact Hafter|].
  exact (proj2 (proj2
           (rows_before_first_rotation sample_env [x00; x9a; x16]
              sample_preamble (sample_record ++ [x00]) [sample_record]
              Hfree eq_refl Hlen Hsig Hbefore Hafter))).
Defined.

Lemma archive_rows_close p q (m : filesystem) :
  archive_rows p (archive_close q m) = archive_rows p m.
Proof.
  unfold archive_rows, archive_close. rewrite lookup_alter.
  case_decide; [subst q|done]. by destruct (m !! p).
Qed.

(** C7 (as amended): the interrupt is not polled at the top of the loop.
    Whatever operation inside the [try] block it reaches, the rotation
    check, the blocking read, the decoding or the append, the run stops
    there: the port and the rows of every archive are left as they were
    and the open archive is closed. *)
Theorem interrupt_takes_effect_anywhere en bytes n :
  let s := run en n (start bytes) in
  in_try (at_pc s) = true -> sigint en (ops s) = true ->
  at_pc (step en s) = PStopped
  /\ port (step en s) = port s
  /\ (forall p, archive_rows p (fs (step en s)) = archive_rows p (fs s))
  /\ all_finalized (fs (step en s)).
Proof.
  intros s Htry Hsig.
  destruct (step_interrupt_in_try en s Htry Hsig) as (Hpc & Hport & _ & Hfs).
  split; [done|]. split; [done|]. split.
  - intros p. rewrite Hfs. destruct (open_path (at_pc s)); [|done].
    apply archive_rows_close.
  - apply terminal_all_finalized; [apply inv_fs_step, inv_fs_run|].
    by rewrite Hpc.
Qed.

Lemma interrupt_takes_effect_anywhere_witness :
  in_try (at_pc (run interrupted_decode_env 11 (start sample_input))) = true
  /\ sigint interrupted_decode_env
       (ops (run interrupted_decode_env 11 (start sample_input))) = true
  /\ at_loop_top (at_pc (run interrupted_decode_env 11 (start sample_input)))
     = false
  /\ at_pc (step interrupted_decode_env
              (run interrupted_decode_env 11 (start sample_input))) = PStopped.
Proof.
  assert (Htry : in_try (at_pc (run interrupted_decode_env 11
                                  (start sample_input))) = true)
    by (vm_compute; reflexivity).
  assert (Hsig : sigint interrupted_decode_env
                   (ops (run interrupted_decode_env 11 (start sample_input)))
                 = true) by (vm_compute; reflexivity).
  split; [exact Htry|]. split; [exact Hsig|].
  split; [vm_compute; reflexivity|].
  exact (proj1 (interrupt_takes_effect_anywhere interrupted_decode_env
                  sample_input 11 Htry Hsig)).
Defined.

(** C7 as stated fails: an interrupt that arrives while the process is
    blocked in the 28-byte read stops the run there. *)
Lemma interrupt_during_blocked_read :
  ~ (forall en bytes n,
       let s := run en n (start bytes) in
       at_pc s <> PStopped -> at_pc (step en s) = PStopped ->
       at_loop_top (at_pc s) = true).
Proof.
  intros Hall.
  specialize (Hall interrupted_env (sync_marker ++ sample_preamble) 9%nat).
  cbv zeta in Hall.
  assert (Hpc : at_pc (run interrupted_env 9
                         (start (sync_marker ++ sample_preamble)))
                = PLoop (Datetime.of_timestamp 1714568400000000)
                    "/home/pi/.garden/metrics/pots/humidity/2024-05-01/12-34-25.zip"
                    LRead) by (vm_compute; reflexivity).
  assert (Hstop : at_pc (step interrupted_env
                           (run interrupted_env 9
                              (start (sync_marker ++ sample_preamble))))
                  = PStopped) by (vm_compute; reflexivity).
  assert (Hrun : at_pc (run interrupted_env 9
                          (start (sync_marker ++ sample_preamble)))
                 <> PStopped) by (rewrite Hpc; discriminate).
  specialize (Hall Hrun Hstop). rewrite Hpc in Hall. discriminate Hall.
Qed.

(** An interrupt during the decoding drops the record that was read. *)
Example interrupt_during_decode :
  let s := run interrupted_decode_env 11 (start sample_input) in
  (exists cp path data, at_pc s = PLoop cp path (LBuild data))
  /\ port s = sample_record ++ [x00]
  /\ at_pc (step interrupted_decode_env s) = PStopped
  /\ port (step interrupted_decode_env s) = sample_record ++ [x00]
  /\ map_to_list (fs (step interrupted_decode_env s))
     = [("/home/pi/.garden/metrics/pots/humidity/2024-05-01/12-34-25.zip",
         header_only)].
Proof.
  cbv zeta. split; [|vm_compute; auto].
  eexists _, _, _. vm_compute. reflexivity.
Qed.

Lemma no_invalid_data en bytes n d :
  ~ In (PrintInvalid d) (log (run en n (start bytes))).
Proof.
  intros Hin. pose proof (inv_log_run en bytes n) as Hinv.
  unfold inv_log in Hinv. rewrite forallb_forall in Hinv.
  by specialize (Hinv _ Hin).
Qed.

(** C8: no run ever prints "Invalid data"; a wire record of 28 bytes is
    always decoded and appended; a read of another length makes [unpack]
    fail, and a failure of the decoding ends the process: it is never
    caught, neither by the handler of line 111 nor by that of line 114. *)
Theorem decode_failures_fatal en :
  (forall bytes n d, ~ In (PrintInvalid d) (log (run en n (start bytes))))
  /\ (forall s cp path raw,
        at_pc s = PLoop cp path (LUnpack raw) ->
        length raw = record_size ->
        (forall j, (j < 4)%nat -> sigint en (ops s + j) = false) ->
        at_pc (run en 4 s) = PLoop cp path LTest
        /\ fs (run en 4 s)
           = archive_append path
               (reading_row (byte_order en)
                  (Datetime.of_timestamp (clock en (ticks s))) raw) (fs s))
  /\ (forall s cp path raw,
        at_pc s = PLoop cp path (LUnpack raw) ->
        length raw <> record_size ->
        sigint en (ops s) = false ->
        at_pc (step en s) = PCrashed StructError)
  /\ (forall s cp path,
        at_pc s = PLoop cp path LRead ->
        port_end en = ReturnsShort ->
        (length (port s) < record_size)%nat ->
        (forall j, (j < 2)%nat -> sigint en (ops s + j) = false) ->
        at_pc (run en 2 s) = PCrashed StructError)
  /\ (forall s cp path data,
        at_pc s = PLoop cp path (LBuild data) ->
        sigint en (ops s) = false ->
        (exists r, at_pc (step en s) = PLoop cp path (LWrite r))
        \/ at_pc (step en s) = PCrashed ValidationError).
Proof.
  split; [intros bytes n d; apply no_invalid_data|].
  split; [|split; [|split]].
  - intros [p b t o m lg] cp path raw Hpc Hlen Hsig. simpl in Hpc. subst p.
    cbn [ops ticks fs] in *.
    pose proof (Hsig 0%nat ltac:(lia)) as H0. rewrite Nat.add_0_r in H0.
    pose proof (Hsig 1%nat ltac:(lia)) as H1. rewrite Nat.add_1_r in H1.
    pose proof (Hsig 2%nat ltac:(lia)) as H2.
    replace (o + 2)%nat with (S (S o)) in H2 by lia.
    pose proof (Hsig 3%nat ltac:(lia)) as H3.
    replace (o + 3)%nat with (S (S (S o))) in H3 by lia.
    cbn [run]. rewrite step_unpack by done. rewrite unpack_record by done.
    rewrite step_build by done.
    change (SoilHumidity_init (pydantic en) ?now (record_kwargs _))
      with (Ok (reading_of (byte_order en) now raw)).
    cbv beta iota. rewrite step_write by done. by rewrite step_print by done.
  - intros [p b t o m lg] cp path raw Hpc Hlen Hsig. simpl in Hpc. subst p.
    cbn [ops] in Hsig. rewrite step_unpack by done.
    by rewrite unpack_wrong_size by done.
  - intros [p b t o m lg] cp path Hpc Hend Hshort Hsig. simpl in Hpc. subst p.
    cbn [ops port] in *.
    pose proof (Hsig 0%nat ltac:(lia)) as H0. rewrite Nat.add_0_r in H0.
    pose proof (Hsig 1%nat ltac:(lia)) as H1. rewrite Nat.add_1_r in H1.
    cbn [run]. exec_step. unfold port_read. rewrite Hend.
    rewrite (proj2 (Nat.leb_gt _ _)) by done.
    unfold set_pc, set_port, count_op. state_fields.
    rewrite step_unpack by done.
    by rewrite unpack_wrong_size by lia.
  - intros [p b t o m lg] cp path data Hpc Hsig. simpl in Hpc. subst p.
    cbn [ops] in Hsig. rewrite step_build by done.
    destruct (SoilHumidity_init _ _ _) as [r|ex] eqn:E.
    + left. by exists r.
    + right. apply SoilHumidity_init_raises in E. by subst ex.
Qed.

Lemma decode_failures_fatal_witness :
  at_pc (run short_read_env 9
           (start (sync_marker ++ sample_preamble ++ [x01; x02])))
  = PLoop (Datetime.of_timestamp 1714568400000000)
      "/home/pi/.garden/metrics/pots/humidity/2024-05-01/12-34-25.zip" LRead
  /\ port_end short_read_env = ReturnsShort
  /\ (length (port (run short_read_env 9
                      (start (sync_marker ++ sample_preamble ++ [x01; x02]))))
      < record_size)%nat
  /\ at_pc (run short_read_env 2
              (run short_read_env 9
                 (start (sync_marker ++ sample_preamble ++ [x01; x02]))))
     = PCrashed StructError.
Proof.
  assert (Hpc : at_pc (run short_read_env 9
                         (start (sync_marker ++ sample_preamble ++ [x01; x02])))
                = PLoop (Datetime.of_timestamp 1714568400000000)
                    "/home/pi/.garden/metrics/pots/humidity/2024-05-01/12-34-25.zip"
                    LRead) by (vm_compute; reflexivity).
  assert (Hshort : (length (port (run short_read_env 9
                      (start (sync_marker ++ sample_preamble ++ [x01; x02]))))
                    < record_size)%nat) by (vm_compute; lia).
  split; [exact Hpc|]. split; [reflexivity|]. split; [exact Hshort|].
  exact (proj1 (proj2 (proj2 (proj2 (decode_failures_fatal short_read_env))))
           _ _ _ Hpc eq_refl Hshort (fun j _ => eq_refl)).
Defined.

(** ** The claims on stalls and on colliding paths *)

Lemma fresh_archive_lookup p (m : filesystem) :
  archive_append p header_row (archive_create p m) !! p
  = Some {| rows := [header_row]; finalized := false |}.
Proof.
  unfold archive_append, archive_create.
  rewrite lookup_alter, decide_True by done. by rewrite lookup_insert_eq.
Qed.

Lemma fresh_archive_other p q (m : filesystem) :
  q <> p -> archive_append p header_row (archive_create p m) !! q = m !! q.
Proof.
  intros Hne. unfold archive_append, archive_create.
  rewrite lookup_alter, decide_False by done. by rewrite lookup_insert_ne.
Qed.

Lemma closed_cycle_lookup p (m : filesystem) :
  archive_close p (archive_append p header_row (archive_create p m)) !! p
  = Some header_only.
Proof.
  unfold archive_close. rewrite lookup_alter, decide_True by done.
  by rewrite fresh_archive_lookup.
Qed.

Lemma closed_cycle_other p q (m : filesystem) :
  q <> p ->
  archive_close p (archive_append p header_row (archive_create p m)) !! q
  = m !! q.
Proof.
  intros Hne. unfold archive_close. rewrite lookup_alter, decide_False by done.
  by apply fresh_archive_other.
Qed.

(** An archive opened when its checkpoint has already passed is closed
    at the first test of the loop. *)
Lemma header_only_cycle en c (b : list byte) t o m lg :
  (forall j, (j < 6)%nat -> sigint en (o + j) = false) ->
  c + Datetime.hours 1 <= clock en (S t) ->
  run en 6 {| at_pc := POpen (Datetime.of_timestamp c); port := b; ticks := t;
              ops := o; fs := m; log := lg |}
  = {| at_pc := POpen (Datetime.of_timestamp (c + Datetime.hours 1));
       port := b; ticks := S (S t); ops := 6 + o;
       fs := archive_close (path_at en t)
               (archive_append (path_at en t) header_row
                  (archive_create (path_at en t) m));
       log := lg ++ open_events en (path_at en t)
                 ++ [Closed (path_at en t) [header_row]] |}.
Proof.
  intros Hsig Hlate. change 6%nat with (5 + 1)%nat at 1. rewrite run_add.
  rewrite run_open by (intros j Hj; apply Hsig; lia).
  cbv zeta. fold (path_at en t).
  rewrite DatetimeFacts.add_of_timestamp. cbn [run].
  rewrite step_loop_test
    by (replace (5 + o)%nat with (o + 5)%nat by lia; apply Hsig; lia).
  rewrite DatetimeFacts.ltb_of_timestamp, (proj2 (Z.ltb_ge _ _)) by done.
  unfold archive_rows. rewrite closed_cycle_lookup. cbn [rows header_only].
  by rewrite <- app_assoc.
Qed.

Lemma stall_burst en (k : nat) :
  forall c (b : list byte) t o m lg,
    (forall j, (j < 6 * k)%nat -> sigint en (o + j) = false) ->
    (forall i, (i < k)%nat ->
       c + Datetime.hours (Z.of_nat i + 1) <= clock en (t + 2 * i + 1)) ->
    exists m',
      run en (6 * k)
        {| at_pc := POpen (Datetime.of_timestamp c); port := b; ticks := t;
           ops := o; fs := m; log := lg |}
      = {| at_pc := POpen (Datetime.of_timestamp
                             (c + Datetime.hours (Z.of_nat k)));
           port := b; ticks := t + 2 * k; ops := o + 6 * k; fs := m';
           log := lg ++ burst_events en t k |}
      /\ (forall i, (i < k)%nat -> m' !! path_at en (t + 2 * i) = Some header_only)
      /\ (forall q, m !! q = Some header_only -> m' !! q = Some header_only).
Proof.
  induction k as [|k IH]; intros c b t o m lg Hsig Hlate.
  - exists m. simpl. rewrite !Nat.add_0_r, app_nil_r.
    unfold Datetime.hours. rewrite Z.mul_0_l, Z.add_0_r.
    split; [done|]. split; [intros i Hi; lia|done].
  - replace (6 * S k)%nat with (6 + 6 * k)%nat by lia. rewrite run_add.
    rewrite header_only_cycle.
    2:{ intros j Hj. apply Hsig. lia. }
    2:{ specialize (Hlate 0%nat ltac:(lia)). simpl in Hlate.
        by rewrite Nat.add_0_r, Nat.add_1_r in Hlate. }
    edestruct (IH (c + Datetime.hours 1) b (S (S t)) (6 + o)%nat)
      as (m' & Hrun & Hnew & Hold).
    { intros j Hj. replace (6 + o + j)%nat with (o + (6 + j))%nat by lia.
      apply Hsig. lia. }
    { intros i Hi. specialize (Hlate (S i) ltac:(lia)).
      replace (S (S t) + 2 * i + 1)%nat with (t + 2 * S i + 1)%nat by lia.
      unfold Datetime.hours in *. lia. }
    exists m'. rewrite Hrun. split; [|split].
    + f_equal; [|lia|lia|].
      * f_equal. f_equal. unfold Datetime.hours. lia.
      * cbn [burst_events]. by rewrite <- !app_assoc.
    + intros [|i] Hi.
      * rewrite Nat.mul_0_r, Nat.add_0_r. apply Hold, closed_cycle_lookup.
      * replace (t + 2 * S i)%nat with (S (S t) + 2 * i)%nat by lia.
        apply Hnew. lia.
    + intros q Hq. apply Hold.
      destruct (decide (q = path_at en t)) as [->|Hne].
      * apply closed_cycle_lookup.
      * by rewrite closed_cycle_other.
Qed.

(** C9: an archive opened when the advanced checkpoint has already passed
    is closed with its header row only, without a read of the port, and the
    next archive is opened at once; while the clock stays ahead of the
    successive checkpoints this makes [k] header-only archives in a row,
    each of them taking the five operations of the opening and the test
    of the loop.  The current time is the one read at the test of the
    loop. *)
Theorem stall_header_only_archives en s c (k : nat) :
  at_pc s = POpen (Datetime.of_timestamp c) ->
  (forall j, (j < 6 * k)%nat -> sigint en (ops s + j) = false) ->
  (forall i, (i < k)%nat ->
     c + Datetime.hours (Z.of_nat i + 1) <= clock en (ticks s + 2 * i + 1)) ->
  let s' := run en (6 * k) s in
  at_pc s' = POpen (Datetime.of_timestamp (c + Datetime.hours (Z.of_nat k)))
  /\ port s' = port s
  /\ log s' = log s ++ burst_events en (ticks s) k
  /\ (forall i, (i < k)%nat ->
        fs s' !! path_at en (ticks s + 2 * i) = Some header_only).
Proof.
  destruct s as [p b t o m lg]. cbn [at_pc ops ticks port log].
  intros -> Hsig Hlate. cbv zeta.
  destruct (stall_burst en k c b t o m lg Hsig Hlate) as (m' & Hrun & Hnew & _).
  rewrite Hrun. cbn [at_pc port log fs]. auto.
Qed.

Lemma stall_header_only_archives_witness :
  let s := run stalled_env 9
             (start (sync_marker ++ sample_preamble ++ sample_record)) in
  at_pc s = POpen (Datetime.of_timestamp 1714568400000000)
  /\ (forall j, (j < 6 * 2)%nat -> sigint stalled_env (ops s + j) = false)
  /\ (forall i, (i < 2)%nat ->
        1714568400000000 + Datetime.hours (Z.of_nat i + 1)
        <= clock stalled_env (ticks s + 2 * i + 1))
  /\ at_pc (run stalled_env (6 * 2) s)
     = POpen (Datetime.of_timestamp
                (1714568400000000 + Datetime.hours (Z.of_nat 2)))
  /\ port (run stalled_env (6 * 2) s) = port s.
Proof.
  intros s.
  assert (Hpc : at_pc s = POpen (Datetime.of_timestamp 1714568400000000))
    by (vm_compute; reflexivity).
  assert (Hsig : forall j, (j < 6 * 2)%nat ->
                           sigint stalled_env (ops s + j) = false)
    by (intros j _; reflexivity).
  assert (Hlate : forall i, (i < 2)%nat ->
            1714568400000000 + Datetime.hours (Z.of_nat i + 1)
            <= clock stalled_env (ticks s + 2 * i + 1)).
  { intros [|[|i]] Hi; [vm_compute; discriminate..|lia]. }
  split; [exact Hpc|]. split; [exact Hsig|]. split; [exact Hlate|].
  destruct (stall_header_only_archives stalled_env s 1714568400000000 2
              Hpc Hsig Hlate) as (H1 & H2 & _).
  split; [exact H1|exact H2].
Defined.

(** The three hours of the stall leave a single file: the archives of the
    burst were all opened within the same second. *)
Example stall_single_file :
  map_to_list
    (fs (run stalled_env 21
           (start (sync_marker ++ sample_preamble ++ sample_record))))
  = [("/home/pi/.garden/metrics/pots/humidity/2024-05-01/15-17-45.zip",
      header_only)]
  /\ count_opened
       (log (run stalled_env 21
               (start (sync_marker ++ sample_preamble ++ sample_record))))
     = 3%nat.
Proof. split; vm_compute; reflexivity. Qed.

Lemma strftime_path_same_second t1 t2 :
  t1 / Datetime.us_per_second = t2 / Datetime.us_per_second ->
  Datetime.strftime_path (Datetime.of_timestamp t1)
  = Datetime.strftime_path (Datetime.of_timestamp t2).
Proof.
  intros Hsec.
  assert (Hfields :
    Datetime.ordinal (Datetime.of_timestamp t1)
    = Datetime.ordinal (Datetime.of_timestamp t2)
    /\ Datetime.hour (Datetime.of_timestamp t1)
       = Datetime.hour (Datetime.of_timestamp t2)
    /\ Datetime.minute (Datetime.of_timestamp t1)
       = Datetime.minute (Datetime.of_timestamp t2)
    /\ Datetime.second (Datetime.of_timestamp t1)
       = Datetime.second (Datetime.of_timestamp t2)).
  { unfold Datetime.of_timestamp, Datetime.of_us, Datetime.epoch_ordinal.
    cbn [Datetime.ordinal Datetime.hour Datetime.minute Datetime.second].
    DatetimeFacts.unfold_units. repeat split; DatetimeFacts.euclid. }
  destruct Hfields as (Ho & Hh & Hm & Hs).
  unfold Datetime.strftime_path. by rewrite Ho, Hh, Hm, Hs.
Qed.

(** C10: the path of an archive only depends on the second in which it is
    opened; opening an archive, in five operations, replaces whatever
    archive was stored at its path by a new one that holds the header row
    only and leaves the other paths alone, the creation of the zip file
    being the operation that empties the path; so an archive opened in the
    same second as an earlier one destroys the contents of the earlier
    one. *)
Theorem same_second_open_replaces en :
  (forall t1 t2,
     t1 / Datetime.us_per_second = t2 / Datetime.us_per_second ->
     archive_path (home en) (Datetime.of_timestamp t1)
     = archive_path (home en) (Datetime.of_timestamp t2))
  /\ (forall s cp,
        at_pc s = POpen cp ->
        (forall j, (j < 5)%nat -> sigint en (ops s + j) = false) ->
        at_pc (run en 5 s)
        = PLoop (Datetime.add cp (Datetime.hours 1)) (path_at en (ticks s)) LTest
        /\ fs (run en 5 s) !! path_at en (ticks s)
           = Some {| rows := [header_row]; finalized := false |}
        /\ (forall q, q <> path_at en (ticks s) ->
                      fs (run en 5 s) !! q = fs s !! q))
  /\ (forall s cp t1 a,
        at_pc s = POpen cp ->
        (forall j, (j < 5)%nat -> sigint en (ops s + j) = false) ->
        fs s !! archive_path (home en) (Datetime.of_timestamp t1) = Some a ->
        t1 / Datetime.us_per_second
        = clock en (ticks s) / Datetime.us_per_second ->
        fs (run en 5 s) !! archive_path (home en) (Datetime.of_timestamp t1)
        = Some {| rows := [header_row]; finalized := false |})
  /\ (forall s cp path,
        at_pc s = PZip cp path -> sigint en (ops s) = false ->
        fs (step en s) !! path = Some {| rows := []; finalized := false |}).
Proof.
  assert (Hpath : forall t1 t2,
            t1 / Datetime.us_per_second = t2 / Datetime.us_per_second ->
            archive_path (home en) (Datetime.of_timestamp t1)
            = archive_path (home en) (Datetime.of_timestamp t2)).
  { intros t1 t2 Hsec. unfold archive_path.
    by rewrite (strftime_path_same_second t1 t2). }
  split; [exact Hpath|]. split; [|split].
  - intros [p b t o m lg] cp Hpc Hsig. simpl in Hpc. subst p.
    cbn [ops ticks fs] in *. rewrite run_open by done. cbv zeta.
    fold (path_at en t). cbn [at_pc fs].
    split; [done|]. split; [apply fresh_archive_lookup|].
    intros q Hq. by apply fresh_archive_other.
  - intros [p b t o m lg] cp t1 a Hpc Hsig Hold Hsec. simpl in Hpc. subst p.
    cbn [ops ticks fs] in *. rewrite run_open by done. cbv zeta. cbn [fs].
    rewrite (Hpath t1 (clock en t)) by done. apply fresh_archive_lookup.
  - intros [p b t o m lg] cp path Hpc Hsig. simpl in Hpc. subst p.
    cbn [ops] in Hsig. exec_step. unfold set_pc, set_fs, emit. state_fields.
    unfold archive_create. apply lookup_insert_eq.
Qed.

Lemma same_second_open_replaces_witness :
  let s := run stalled_env 9
             (start (sync_marker ++ sample_preamble ++ sample_record)) in
  at_pc s = POpen (Datetime.of_timestamp 1714568400000000)
  /\ (forall j, (j < 5)%nat -> sigint stalled_env (ops s + j) = false)
  /\ fs s !! archive_path (home stalled_env)
               (Datetime.of_timestamp (clock stalled_env 1))
     = Some header_only
  /\ clock stalled_env 1 / Datetime.us_per_second
     = clock stalled_env (ticks s) / Datetime.us_per_second
  /\ fs (run stalled_env 5 s)
       !! archive_path (home stalled_env)
            (Datetime.of_timestamp (clock stalled_env 1))
     = Some {| rows := [header_row]; finalized := false |}.
Proof.
  intros s.
  assert (Hpc : at_pc s = POpen (Datetime.of_timestamp 1714568400000000))
    by (vm_compute; reflexivity).
  assert (Hsig : forall j, (j < 5)%nat -> sigint stalled_env (ops s + j) = false)
    by (intros j _; reflexivity).
  assert (Hold : fs s !! archive_path (home stalled_env)
                            (Datetime.of_timestamp (clock stalled_env 1))
                 = Some header_only) by (vm_compute; reflexivity).
  assert (Hsec : clock stalled_env 1 / Datetime.us_per_second
                 = clock stalled_env (ticks s) / Datetime.us_per_second)
    by (vm_compute; reflexivity).
  split; [exact Hpc|]. split; [exact Hsig|]. split; [exact Hold|].
  split; [exact Hsec|].
  exact (proj1 (proj2 (proj2 (same_second_open_replaces stalled_env)))
           s _ _ _ Hpc Hsig Hold Hsec).
Defined.

(** One second apart, the paths differ. *)
Example archive_path_next_second :
  archive_path "/home/pi" (Datetime.of_timestamp 1714565865999999)
  <> archive_path "/home/pi" (Datetime.of_timestamp 1714565866000000).
Proof. vm_compute. discriminate. Qed.

(** An archive with data rows, overwritten by the next one when the clock
    steps back into the second in which the first was opened. *)
Example rows_lost_on_collision :
  let s := run step_back_env 15
             (start (sync_marker ++ sample_preamble ++ sample_record)) in
  at_pc s = POpen (Datetime.of_timestamp 1714568400000000)
  /\ (exists a, fs s !! path_at step_back_env 1 = Some a
                /\ length (rows a) = 2%nat)
  /\ path_at step_back_env 1 = path_at step_back_env 5
  /\ fs (run step_back_env 3 s) !! path_at step_back_env 1
     = Some {| rows := []; finalized := false |}
  /\ fs (run step_back_env 5 s) !! path_at step_back_env 1
     = Some {| rows := [header_row]; finalized := false |}.
Proof.
  cbv zeta. split; [vm_compute; reflexivity|].
  split; [eexists; split; vm_compute; reflexivity|].
  repeat split; vm_compute; reflexivity.
Qed.

(** ** The choice of the port *)

Lemma is_arduino_spec p :
  is_arduino p = true <-> manufacturer p = Some arduino.
Proof.
  unfold is_arduino. destruct (manufacturer p) as [m|]; [|done].
  rewrite String.eqb_eq. split; congruence.
Qed.

(** X1: [suggest_comport] returns the first enumerated port whose
    manufacturer is exactly "Arduino (www.arduino.cc)", and [None] exactly
    when no port has that manufacturer. *)
Theorem suggest_comport_first ports :
  match suggest_comport ports with
  | Some p =>
      exists before after,
        ports = before ++ p :: after
        /\ manufacturer p = Some arduino
        /\ Forall (fun q => manufacturer q <> Some arduino) before
  | None => Forall (fun q => manufacturer q <> Some arduino) ports
  end.
Proof.
  induction ports as [|q ports IH]; simpl; [constructor|].
  destruct (is_arduino q) eqn:E.
  - exists [], ports. split; [done|]. split; [by apply is_arduino_spec|constructor].
  - assert (Hq : manufacturer q <> Some arduino).
    { intros Hm. apply is_arduino_spec in Hm. congruence. }
    destruct (suggest_comport ports) as [p|].
    + destruct IH as (before & after & -> & Hp & Hbefore).
      exists (q :: before), after. split; [done|]. split; [done|].
      by constructor.
    + by constructor.
Qed.

Lemma open_serial_spec port baudrate :
  open_serial port baudrate
  = match port with
    | Some d => if String.eqb d "" then DeviceNotFound else OpenSerial d baudrate
    | None => DeviceNotFound
    end.
Proof. unfold open_serial, no_port. by destruct port. Qed.

(** X2: [main] opens a serial port exactly when [--list] is absent and
    either a non-empty port was given, which is then used whatever is
    plugged in, or none was given, the first enumeration holds an Arduino
    and the device of the Arduino found by the second enumeration is
    non-empty; the baud rate is the one of the arguments. *)
Theorem serial_opened_iff a comports d b :
  main_prelude a comports = OpenSerial d b
  <-> arg_list a = false /\ b = arg_baudrate a /\ d <> ""
      /\ (arg_port a = Some d
          \/ (no_port (arg_port a) = true
              /\ (exists p0, suggest_comport (comports 0%nat) = Some p0)
              /\ exists p, suggest_comport (comports 1%nat) = Some p
                           /\ device p = d)).
Proof.
  assert (Hnonempty : forall g : string, String.eqb g "" = false <-> g <> "")
    by (intros g; apply String.eqb_neq).
  unfold main_prelude, no_port. split.
  - intros Hmain.
    destruct (arg_list a); [discriminate Hmain|].
    destruct (arg_port a) as [given|].
    + destruct (String.eqb given "") eqn:Hgiven.
      * destruct (suggest_comport (comports 0%nat)) as [p0|] eqn:H0.
        -- destruct (suggest_comport (comports 1%nat)) as [p|] eqn:H1;
             [|discriminate Hmain].
           rewrite open_serial_spec in Hmain.
           destruct (String.eqb (device p) "") eqn:Hd; [discriminate Hmain|].
           injection Hmain as <- <-. apply Hnonempty in Hd.
           repeat split; try done. right. split; [done|]. eauto.
        -- rewrite open_serial_spec, Hgiven in Hmain. discriminate Hmain.
      * rewrite open_serial_spec, Hgiven in Hmain.
        injection Hmain as <- <-. apply Hnonempty in Hgiven. auto.
    + destruct (suggest_comport (comports 0%nat)) as [p0|] eqn:H0;
        [|discriminate Hmain].
      destruct (suggest_comport (comports 1%nat)) as [p|] eqn:H1;
        [|discriminate Hmain].
      rewrite open_serial_spec in Hmain.
      destruct (String.eqb (device p) "") eqn:Hd; [discriminate Hmain|].
      injection Hmain as <- <-. apply Hnonempty in Hd.
      repeat split; try done. right. split; [done|]. eauto.
  - intros (-> & -> & Hne & [->|(Hno & [p0 H0] & p & H1 & <-)]).
    + by rewrite (proj2 (Hnonempty d) Hne), open_serial_spec,
        (proj2 (Hnonempty d) Hne).
    + rewrite H0, H1, open_serial_spec, (proj2 (Hnonempty (device p)) Hne).
      destruct (arg_port a) as [given|]; by rewrite ?Hno.
Qed.

(** X3: the device is looked up twice.  [main] fails with an
    [AttributeError] exactly when no port was given, the first enumeration
    holds an Arduino and the second one does not; it never does when both
    enumerations agree, and then, without a port argument, it reports
    "Device not found" exactly when no port has the manufacturer of an
    Arduino or the device of the first such port is empty. *)
Theorem device_lookup_twice a comports :
  (main_prelude a comports = AttributeError
   <-> arg_list a = false /\ no_port (arg_port a) = true
       /\ (exists p0, suggest_comport (comports 0%nat) = Some p0)
       /\ suggest_comport (comports 1%nat) = None)
  /\ (comports 1%nat = comports 0%nat ->
      main_prelude a comports <> AttributeError
      /\ (arg_list a = false -> no_port (arg_port a) = true ->
          (main_prelude a comports = DeviceNotFound
           <-> suggest_comport (comports 0%nat) = None
               \/ exists p, suggest_comport (comports 0%nat) = Some p
                            /\ device p = ""))).
Proof.
  assert (Hnever : forall port b, open_serial port b <> AttributeError).
  { intros port b. rewrite open_serial_spec.
    destruct port as [g|]; [destruct (String.eqb g "")|]; discriminate. }
  assert (Hiff : main_prelude a comports = AttributeError
                 <-> arg_list a = false /\ no_port (arg_port a) = true
                     /\ (exists p0, suggest_comport (comports 0%nat) = Some p0)
                     /\ suggest_comport (comports 1%nat) = None).
  { unfold main_prelude. split.
    - intros Hmain. destruct (arg_list a); [discriminate Hmain|].
      destruct (no_port (arg_port a)); [|by apply Hnever in Hmain].
      destruct (suggest_comport (comports 0%nat)) as [p0|];
        [|by apply Hnever in Hmain].
      destruct (suggest_comport (comports 1%nat)) as [p|];
        [by apply Hnever in Hmain|].
      repeat split; eauto.
    - by intros (-> & -> & [p0 ->] & ->). }
  split; [exact Hiff|]. intros Hsame. split.
  - rewrite Hiff, Hsame. intros (_ & _ & [p0 Hp0] & Hnone). congruence.
  - intros Hlist Hno. unfold main_prelude. rewrite Hlist, Hno, Hsame.
    destruct (suggest_comport (comports 0%nat)) as [p|].
    + rewrite open_serial_spec.
      destruct (String.eqb_spec (device p) "") as [Hd|Hd]; split.
      * intros _. right. eauto.
      * done.
      * discriminate.
      * intros [Hnone|(q & Hq & Hempty)]; [discriminate Hnone|].
        injection Hq as <-. done.
    + split; [auto|]. intros _. unfold open_serial. by rewrite Hno.
Qed.

Lemma device_lookup_twice_witness :
  (fun _ : nat => [usb_serial; arduino_uno]) 1%nat
  = (fun _ : nat => [usb_serial; arduino_uno]) 0%nat
  /\ main_prelude no_arguments (fun _ => [usb_serial; arduino_uno])
     <> AttributeError.
Proof.
  split; [reflexivity|].
  exact (proj1 (proj2 (device_lookup_twice no_arguments
                         (fun _ => [usb_serial; arduino_uno])) eq_refl)).
Defined.

(** The Arduino is unplugged between the two enumerations. *)
Example device_unplugged :
  main_prelude no_arguments
    (fun n => match n with
              | O => [usb_serial; arduino_uno]
              | S _ => [usb_serial]
              end)
  = AttributeError
  /\ main_prelude no_arguments (fun _ => [usb_serial; arduino_uno])
     = OpenSerial "/dev/ttyACM0" 19200
  /\ main_prelude no_arguments (fun _ => [usb_serial]) = DeviceNotFound.
Proof. repeat split. Qed.

(** ** More on the frame synchronizer *)

Lemma ends_with_marker_suffix (line : list byte) :
  ends_with_marker line <-> py_suffix (length sync_marker) line = sync_marker.
Proof.
  split.
  - intros [a ->]. apply py_suffix_app.
  - intros Hs. by apply (py_suffix_eq (length sync_marker)).
Qed.

Lemma read_until_loop_ok x (e : list byte) :
  forall (buf line0 line rest : list byte),
    read_until_loop x e line0 buf = ReadOk line rest ->
    exists w,
      line = line0 ++ w /\ buf = w ++ rest
      /\ (forall p q, w = p ++ q -> p <> [] -> q <> [] ->
                      py_suffix (length e) (line0 ++ p) <> e)
      /\ ((w <> [] /\ py_suffix (length e) line = e)
          \/ (x = ReturnsShort /\ rest = []
              /\ (w <> [] -> py_suffix (length e) line <> e))).
Proof.
  induction buf as [|c buf IH]; intros line0 line rest Hloop; simpl in Hloop.
  - destruct x; try discriminate. injection Hloop as <- <-.
    exists []. rewrite app_nil_r. split; [done|]. split; [done|]. split.
    + intros p q Hpq Hp. by destruct p.
    + right. auto.
  - destruct (bytes_eqb _ e) eqn:E.
    + injection Hloop as <- <-. apply bytes_eqb_eq in E.
      exists [c]. split; [done|]. split; [done|]. split.
      * intros [|? [|? ?]] [|? ?] Hpq Hp Hq; done.
      * left. done.
    + apply IH in Hloop as (w & -> & -> & Hno & Hend).
      assert (Hc : py_suffix (length e) (line0 ++ [c]) <> e).
      { intros Hs. apply bytes_eqb_eq in Hs. congruence. }
      exists (c :: w). rewrite <- app_assoc in *. split; [done|]. split; [done|].
      split.
      * intros [|c' p] q Hpq Hp Hq; [done|]. injection Hpq as <- ->.
        destruct p as [|c'' p]; [done|].
        specialize (Hno (c'' :: p) q eq_refl ltac:(done) Hq).
        by rewrite <- app_assoc in Hno.
      * destruct Hend as [[Hw Hs]|(-> & -> & Hs)].
        -- left. done.
        -- right. split; [done|]. split; [done|]. intros _.
           destruct w as [|c' w]; [done|]. by apply Hs.
Qed.

Lemma read_until_loop_found x (e w : list byte) :
  forall (line0 rest : list byte),
    w <> [] -> py_suffix (length e) (line0 ++ w) = e ->
    exists line rest',
      read_until_loop x e line0 (w ++ rest) = ReadOk line rest'
      /\ py_suffix (length e) line = e.
Proof.
  induction w as [|c w IH]; intros line0 rest Hw Hs; [done|]. simpl.
  destruct (bytes_eqb _ e) eqn:E.
  - apply bytes_eqb_eq in E. eauto.
  - destruct w as [|c' w].
    + apply bytes_eqb_eq in Hs. congruence.
    + apply IH; [done|]. by rewrite <- app_assoc.
Qed.

Lemma read_until_loop_exhausted x (e : list byte) :
  forall (buf line0 : list byte),
    (forall p q, buf = p ++ q -> p <> [] ->
                 py_suffix (length e) (line0 ++ p) <> e) ->
    read_until_loop x e line0 buf
    = match x with
      | Blocks => ReadBlocked
      | Disconnects => ReadError
      | ReturnsShort => ReadOk (line0 ++ buf) []
      end.
Proof.
  induction buf as [|c buf IH]; intros line0 Hno; simpl.
  - by rewrite app_nil_r.
  - destruct (bytes_eqb _ e) eqn:E.
    + apply bytes_eqb_eq in E. by destruct (Hno [c] buf).
    + rewrite IH; [by rewrite <- app_assoc|].
      intros p q -> Hp. rewrite <- app_assoc. by apply (Hno (c :: p) q).
Qed.

(** X4: whatever is pending on the port, when [read_until] returns, the
    bytes it consumed are a prefix of the pending ones of which no shorter
    prefix ends with the sync marker; they end with the marker themselves
    unless the source ran out, which only a source that returns short
    reads lets happen.  Whenever the marker is pending, it is found. *)
Theorem read_until_shortest_prefix x (buf : list byte) :
  (forall line rest,
     read_until x sync_marker buf = ReadOk line rest ->
     buf = line ++ rest
     /\ (forall p q, line = p ++ q -> p <> [] -> q <> [] ->
                     ~ ends_with_marker p)
     /\ (ends_with_marker line
         \/ (x = ReturnsShort /\ rest = [] /\ ~ contains sync_marker buf)))
  /\ (contains sync_marker buf ->
      exists line rest,
        read_until x sync_marker buf = ReadOk line rest
        /\ ends_with_marker line).
Proof.
  split.
  - intros line rest Hread. unfold read_until in Hread.
    apply read_until_loop_ok in Hread as (w & -> & -> & Hno & Hend).
    simpl in *. split; [done|]. split.
    + intros p q Hpq Hp Hq Hends. apply ends_with_marker_suffix in Hends.
      by apply (Hno p q).
    + destruct Hend as [[Hw Hs]|(-> & -> & Hs)].
      * left. by apply ends_with_marker_suffix.
      * destruct (bytes_eqb (py_suffix (length sync_marker) w) sync_marker)
          eqn:E.
        -- left. apply ends_with_marker_suffix. by apply bytes_eqb_eq.
        -- assert (Hends : ~ ends_with_marker w).
           { intros Hw. apply ends_with_marker_suffix, bytes_eqb_eq in Hw.
             congruence. }
           right. split; [done|]. split; [done|].
           intros (a & b & Hab). rewrite app_nil_r in Hab.
           destruct b as [|c b].
           ++ apply Hends. exists a. by rewrite Hab, app_nil_r.
           ++ apply (Hno (a ++ sync_marker) (c :: b)).
              ** by rewrite Hab, <- app_assoc.
              ** by destruct a.
              ** done.
              ** apply (py_suffix_app a sync_marker).
  - intros (a & b & ->). unfold read_until.
    destruct (read_until_loop_found x sync_marker (a ++ sync_marker) [] b)
      as (line & rest & Hloop & Hs).
    + by destruct a.
    + apply (py_suffix_app a sync_marker).
    + exists line, rest. rewrite app_assoc. split; [done|].
      by apply ends_with_marker_suffix.
Qed.

Lemma read_until_shortest_prefix_witness :
  contains sync_marker sample_input
  /\ exists line rest,
       read_until Blocks sync_marker sample_input = ReadOk line rest
       /\ ends_with_marker line.
Proof.
  assert (Hin : contains sync_marker sample_input).
  { exists [x00; x9a; x16],
      (sample_preamble ++ sample_record ++ sample_record ++ [x00]).
    reflexivity. }
  split; [exact Hin|].
  exact (proj2 (read_until_shortest_prefix Blocks sample_input) Hin).
Defined.

Lemma read_until_no_marker x (buf : list byte) :
  ~ contains sync_marker buf ->
  read_until x sync_marker buf
  = match x with
    | Blocks => ReadBlocked
    | Disconnects => ReadError
    | ReturnsShort => ReadOk buf []
    end.
Proof.
  intros Hfree. unfold read_until.
  rewrite read_until_loop_exhausted; [done|].
  intros p q -> Hp Hs. simpl in Hs.
  apply ends_with_marker_suffix in Hs as [a ->].
  apply Hfree. exists a, q. by rewrite <- app_assoc.
Qed.

(** X5: when the sync marker never arrives, a blocking port keeps the
    process in the synchronizer for ever: there is no timeout, no archive
    is created and nothing is printed.  A disconnected port ends the
    process with a [SerialException].  On a source that returns short reads
    the result of [read_until] is not looked at: the pipeline goes on,
    unsynchronized, with an empty port. *)
Theorem sync_without_marker en (buf : list byte) :
  ~ contains sync_marker buf ->
  (port_end en = Blocks ->
   forall n, (forall i, (i < n)%nat -> sigint en i = false) ->
     run en n (start buf)
     = {| at_pc := PSync; port := buf; ticks := 0; ops := n; fs := ∅;
          log := [] |})
  /\ (port_end en = Disconnects -> sigint en 0 = false ->
      forall n, run en (S n) (start buf)
                = {| at_pc := PCrashed SerialException; port := buf; ticks := 0;
                     ops := 1; fs := ∅; log := [] |})
  /\ (port_end en = ReturnsShort -> sigint en 0 = false -> sigint en 1 = false ->
      run en 2 (start buf)
      = {| at_pc := PInit; port := []; ticks := 0; ops := 2; fs := ∅;
           log := [] |}).
Proof.
  intros Hfree. split; [|split].
  - intros Hend n. induction n as [|n IH]; intros Hsig; [done|].
    rewrite run_succ, IH by (intros i Hi; apply Hsig; lia).
    rewrite step_exec by (try done; apply Hsig; simpl; lia).
    unfold exec. state_fields.
    by rewrite read_until_no_marker, Hend by done.
  - intros Hend Hsig n. cbn [run].
    rewrite (step_exec en (start buf)) by done.
    unfold exec, start. state_fields.
    rewrite read_until_no_marker, Hend by done.
    by apply terminal_run.
  - intros Hend H0 H1. cbn [run].
    rewrite (step_exec en (start buf)) by done.
    unfold exec, start. state_fields.
    rewrite read_until_no_marker, Hend by done.
    unfold set_pc, set_port, count_op. state_fields.
    rewrite step_exec by done. unfold exec. state_fields.
    unfold port_read. by rewrite Hend.
Qed.

Lemma sync_without_marker_witness :
  ~ contains sync_marker sample_preamble
  /\ port_end sample_env = Blocks
  /\ (forall i, (i < 1000)%nat -> sigint sample_env i = false)
  /\ run sample_env 1000 (start sample_preamble)
     = {| at_pc := PSync; port := sample_preamble; ticks := 0; ops := 1000;
          fs := ∅; log := [] |}.
Proof.
  assert (Hfree : ~ contains sync_marker sample_preamble).
  { intros (a & b & E).
    assert (Hin : In x9a sample_preamble).
    { rewrite E. apply in_or_app. right. by left. }
    simpl in Hin. intuition discriminate. }
  split; [exact Hfree|]. split; [reflexivity|].
  split; [intros i _; reflexivity|].
  exact (proj1 (sync_without_marker sample_env sample_preamble Hfree)
           eq_refl 1000%nat (fun i _ => eq_refl)).
Defined.

(** X6: an interrupt that arrives during one of the first two operations,
    that is while the process is still synchronizing, is outside the [try]
    block: the process dies of an uncaught exception instead of stopping
    gracefully, and no archive has been created. *)
Theorem interrupt_before_try en (buf : list byte) n :
  sigint en 0 = true \/ sigint en 1 = true ->
  (2 <= n)%nat ->
  (at_pc (run en n (start buf)) = PCrashed KeyboardInterrupt
   \/ at_pc (run en n (start buf)) = PCrashed SerialException)
  /\ fs (run en n (start buf)) = ∅
  /\ log (run en n (start buf)) = [].
Proof.
  intros Hsig Hn. replace n with (2 + (n - 2))%nat by lia.
  rewrite run_add.
  assert (Htwo : (at_pc (run en 2 (start buf)) = PCrashed KeyboardInterrupt
                  \/ at_pc (run en 2 (start buf)) = PCrashed SerialException)
                 /\ fs (run en 2 (start buf)) = ∅
                 /\ log (run en 2 (start buf)) = []).
  { cbn [run]. unfold start.
    destruct (sigint en 0) eqn:H0.
    - rewrite (step_interrupt en {| at_pc := PSync |}) by done.
      unfold interrupt. state_fields. unfold set_pc, count_op. state_fields.
      rewrite step_terminal by done. auto.
    - destruct Hsig as [Hsig|H1]; [done|].
      rewrite (step_exec en {| at_pc := PSync |}) by done.
      unfold exec. state_fields.
      destruct (read_until _ _ _) as [line rest| |];
        unfold set_pc, set_port, count_op; state_fields.
      + rewrite step_interrupt by done. unfold interrupt. state_fields. auto.
      + rewrite step_interrupt by done. unfold interrupt. state_fields. auto.
      + rewrite step_terminal by done. auto. }
  destruct Htwo as (Hpc & Hfs & Hlog).
  rewrite terminal_run; [done|]. by destruct Hpc as [-> | ->].
Qed.

Lemma interrupt_before_try_witness :
  (sigint interrupted_sync_env 0 = true \/ sigint interrupted_sync_env 1 = true)
  /\ (2 <= 7)%nat
  /\ (at_pc (run interrupted_sync_env 7 (start sample_input))
      = PCrashed KeyboardInterrupt
      \/ at_pc (run interrupted_sync_env 7 (start sample_input))
         = PCrashed SerialException)
  /\ fs (run interrupted_sync_env 7 (start sample_input)) = ∅.
Proof.
  assert (Hsig : sigint interrupted_sync_env 0 = true
                 \/ sigint interrupted_sync_env 1 = true)
    by (right; reflexivity).
  assert (Hn : (2 <= 7)%nat) by lia.
  split; [exact Hsig|]. split; [exact Hn|].
  destruct (interrupt_before_try interrupted_sync_env sample_input 7 Hsig Hn)
    as (Hpc & Hfs & _).
  split; [exact Hpc|exact Hfs].
Defined.

(** ** More on the record decoder *)

Lemma le_combine_bound (l : list byte) :
  0 <= le_combine l < 256 ^ Z.of_nat (length l).
Proof.
  induction l as [|b l IH]; [simpl; lia|].
  cbn [le_combine length]. rewrite Nat2Z.inj_succ, Z.pow_succ_r by lia.
  pose proof (Byte.to_N_bounded b). lia.
Qed.

Lemma combine_bytes_bound bo (l : list byte) (k : nat) :
  (length l <= k)%nat -> 0 <= combine_bytes bo l < 256 ^ Z.of_nat k.
Proof.
  intros Hlen.
  assert (Hpow : 256 ^ Z.of_nat (length l) <= 256 ^ Z.of_nat k)
    by (apply Z.pow_le_mono_r; lia).
  destruct bo; simpl.
  - pose proof (le_combine_bound l). lia.
  - pose proof (le_combine_bound (rev l)) as Hb.
    rewrite length_rev in Hb. lia.
Qed.

Lemma u16_at_range bo (raw : list byte) off : 0 <= u16_at bo raw off < 65536.
Proof.
  unfold u16_at. apply (combine_bytes_bound bo _ 2).
  rewrite length_take. lia.
Qed.

Lemma f32_at_range bo (raw : list byte) off :
  0 <= f32_bits (f32_at bo raw off) < 4294967296.
Proof.
  unfold f32_at. cbn [f32_bits]. apply (combine_bytes_bound bo _ 4).
  rewrite length_take. lia.
Qed.

Lemma decode_record_length bo co now (raw : list byte) m :
  decode_record bo co now raw = Ok m -> length raw = record_size.
Proof.
  unfold decode_record, unpack. intros Hdec.
  destruct (length raw =? calcsize record_format)%nat eqn:E; [|done].
  by apply Nat.eqb_eq in E.
Qed.

(** X7: a reading that was decoded has all its fields: the timestamp is
    the time of the decoding, the five integers lie between 0 and 65535 and
    the three floats are 32-bit data.  A buffer of another length than 28
    is never decoded. *)
Theorem decoded_reading_complete bo co now (raw : list byte) m :
  decode_record bo co now raw = Ok m ->
  length raw = record_size
  /\ timestamp m = now
  /\ (exists a b c d e,
        potId m = Some a /\ airLevel m = Some b /\ waterLevel m = Some c
        /\ soilHumidity m = Some d /\ soilHumidityPercent m = Some e
        /\ 0 <= a < 65536 /\ 0 <= b < 65536 /\ 0 <= c < 65536
        /\ 0 <= d < 65536 /\ 0 <= e < 65536)
  /\ (exists x y z,
        airTemperature m = Some x /\ airHumidity m = Some y
        /\ heatIndex m = Some z
        /\ 0 <= f32_bits x < 4294967296 /\ 0 <= f32_bits y < 4294967296
        /\ 0 <= f32_bits z < 4294967296).
Proof.
  intros Hdec. pose proof (decode_record_length _ _ _ _ _ Hdec) as Hlen.
  rewrite decode_record_ok in Hdec by done. injection Hdec as <-.
  cbn [timestamp potId airLevel waterLevel soilHumidity soilHumidityPercent
       airTemperature airHumidity heatIndex].
  split; [done|]. split; [done|]. split.
  - eexists _, _, _, _, _. repeat split; apply u16_at_range.
  - eexists _, _, _. repeat split; apply f32_at_range.
Qed.

Lemma decoded_reading_complete_witness :
  decode_record LittleEndian sample_coercions (Datetime.of_timestamp 0)
    sample_record
  = Ok (reading_of LittleEndian (Datetime.of_timestamp 0) sample_record)
  /\ timestamp (reading_of LittleEndian (Datetime.of_timestamp 0) sample_record)
     = Datetime.of_timestamp 0.
Proof.
  split; [reflexivity|].
  exact (proj1 (proj2
           (decoded_reading_complete LittleEndian sample_coercions
              (Datetime.of_timestamp 0) sample_record _ eq_refl))).
Defined.

Example decode_short_buffer :
  decode_record LittleEndian sample_coercions (Datetime.of_timestamp 0)
    (take 27 sample_record)
  = Raise StructError
  /\ decode_record LittleEndian sample_coercions (Datetime.of_timestamp 0)
       (sample_record ++ [x00])
     = Raise StructError.
Proof. split; reflexivity. Qed.

Lemma to_N_inj (a b : byte) : Byte.to_N a = Byte.to_N b -> a = b.
Proof.
  intros E. apply (f_equal Byte.of_N) in E.
  rewrite !Byte.of_to_N in E. congruence.
Qed.

Lemma le_combine_inj (l l' : list byte) :
  length l = length l' -> le_combine l = le_combine l' -> l = l'.
Proof.
  revert l'. induction l as [|a l IH]; intros [|b l'] Hlen E; try done.
  cbn [le_combine] in E. injection Hlen as Hlen.
  pose proof (Byte.to_N_bounded a). pose proof (Byte.to_N_bounded b).
  assert (Hab : Byte.to_N a = Byte.to_N b) by lia.
  f_equal; [by apply to_N_inj|]. apply IH; [done|]. lia.
Qed.

Lemma combine_bytes_inj bo (l l' : list byte) :
  length l = length l' -> combine_bytes bo l = combine_bytes bo l' -> l = l'.
Proof.
  intros Hlen E. destruct bo; simpl in E.
  - by apply le_combine_inj.
  - apply le_combine_inj in E; [|by rewrite !length_rev].
    apply (f_equal (fun k : list byte => rev k)) in E.
    by rewrite !rev_involutive in E.
Qed.

(** X8: decoding loses nothing of the integers of a wire record: two
    records whose readings have the same five integers have the same bytes
    6 to 15. *)
Theorem decoded_integers_determine_bytes bo co now now' (raw raw' : list byte)
    m m' :
  decode_record bo co now raw = Ok m ->
  decode_record bo co now' raw' = Ok m' ->
  potId m = potId m' -> airLevel m = airLevel m' ->
  waterLevel m = waterLevel m' -> soilHumidity m = soilHumidity m' ->
  soilHumidityPercent m = soilHumidityPercent m' ->
  take 10 (drop 6 raw) = take 10 (drop 6 raw').
Proof.
  intros Hdec Hdec' H1 H2 H3 H4 H5.
  pose proof (decode_record_length _ _ _ _ _ Hdec) as Hlen.
  pose proof (decode_record_length _ _ _ _ _ Hdec') as Hlen'.
  rewrite decode_record_ok in Hdec, Hdec' by done.
  injection Hdec as <-. injection Hdec' as <-.
  cbn [potId airLevel waterLevel soilHumidity soilHumidityPercent] in *.
  unfold u16_at in *.
  do 29 (destruct raw as [|? raw]; try discriminate Hlen).
  do 29 (destruct raw' as [|? raw']; try discriminate Hlen').
  cbn [take drop] in *.
  injection H1 as H1. injection H2 as H2. injection H3 as H3.
  injection H4 as H4. injection H5 as H5.
  apply combine_bytes_inj in H1, H2, H3, H4, H5; try done.
  congruence.
Qed.

Lemma decoded_integers_determine_bytes_witness :
  take 10 (drop 6 sample_record)
  = take 10 (drop 6 ([xff; xff; xff; xff; xff; xff] ++ drop 6 sample_record)).
Proof.
  exact (decoded_integers_determine_bytes LittleEndian sample_coercions
           (Datetime.of_timestamp 0) (Datetime.of_timestamp 1)
           sample_record ([xff; xff; xff; xff; xff; xff] ++ drop 6 sample_record)
           _ _ eq_refl eq_refl eq_refl eq_refl eq_refl eq_refl eq_refl).
Defined.

(** ** More on the archives and the rotation *)

(** X9: at most one archive is open at any time: an archive that is not
    finalized is the one whose [with] blocks the process is in, so two
    such archives are the same. *)
Theorem single_open_archive en bytes n p a :
  fs (run en n (start bytes)) !! p = Some a ->
  finalized a = false ->
  open_path (at_pc (run en n (start bytes))) = Some p
  /\ (forall q b, fs (run en n (start bytes)) !! q = Some b ->
                  finalized b = false -> q = p).
Proof.
  intros Hp Hopen. pose proof (inv_fs_run en bytes n) as Hinv.
  pose proof (inv_fs_open _ p a Hinv Hp Hopen) as Hpc.
  split; [done|]. intros q b Hq Hb.
  pose proof (inv_fs_open _ q b Hinv Hq Hb) as Hpc'. congruence.
Qed.

Lemma single_open_archive_witness :
  exists a,
    fs (run sample_env 10 (start sample_input))
      !! "/home/pi/.garden/metrics/pots/humidity/2024-05-01/12-34-25.zip"
    = Some a
    /\ finalized a = false
    /\ open_path (at_pc (run sample_env 10 (start sample_input)))
       = Some "/home/pi/.garden/metrics/pots/humidity/2024-05-01/12-34-25.zip".
Proof.
  assert (Hp : fs (run sample_env 10 (start sample_input))
                 !! "/home/pi/.garden/metrics/pots/humidity/2024-05-01/12-34-25.zip"
               = Some {| rows := [header_row]; finalized := false |})
    by (vm_compute; reflexivity).
  eexists. split; [exact Hp|]. split; [reflexivity|].
  exact (proj1 (single_open_archive sample_env sample_input 10 _ _ Hp eq_refl)).
Defined.

(** X10: the checkpoint always lies on a full hour: its minute, second
    and microsecond are zero, however late the rotations happen. *)
Theorem checkpoint_on_the_hour en bytes n cp :
  checkpoint_of (at_pc (run en n (start bytes))) = Some cp ->
  Datetime.minute cp = 0 /\ Datetime.second cp = 0
  /\ Datetime.microsecond cp = 0 /\ 0 <= Datetime.hour cp < 24.
Proof.
  intros Hcp. pose proof (inv_checkpoint_run en bytes n) as Hinv.
  unfold inv_checkpoint in Hinv.
  assert (Hform : exists k : nat, cp = checkpoint_after (clock en 0) k).
  { destruct (at_pc (run en n (start bytes))); try discriminate Hcp;
      injection Hcp as <-; destruct Hinv as [-> _]; eauto. }
  destruct Hform as [k ->].
  unfold checkpoint_after, truncate_to_hour, Datetime.hours,
    Datetime.of_timestamp, Datetime.of_us, Datetime.epoch_ordinal.
  cbn [Datetime.minute Datetime.second Datetime.microsecond Datetime.hour].
  DatetimeFacts.unfold_units. repeat split; DatetimeFacts.euclid.
Qed.

Lemma checkpoint_on_the_hour_witness :
  checkpoint_of (at_pc (run stalled_env 21
                          (start (sync_marker ++ sample_preamble ++ sample_record))))
  = Some (Datetime.of_timestamp 1714575600000000)
  /\ Datetime.minute (Datetime.of_timestamp 1714575600000000) = 0.
Proof.
  assert (Hcp : checkpoint_of
                  (at_pc (run stalled_env 21
                            (start (sync_marker ++ sample_preamble
                                    ++ sample_record))))
                = Some (Datetime.of_timestamp 1714575600000000))
    by (vm_compute; reflexivity).
  split; [exact Hcp|].
  exact (proj1 (checkpoint_on_the_hour stalled_env _ 21 _ Hcp)).
Defined.

(** ** The messages *)

Lemma inv_prints_step en s : inv_prints en s -> inv_prints en (step en s).
Proof.
  unfold inv_prints. intros (Hq & Hnq & Hv). break_step en s; raised_exn.
  all: unfold count_opened in *.
  all: rewrite ?forallb_app, ?List.filter_app, ?length_app; simpl.
  all: repeat split; intros; simplify_eq; rewrite ?andb_true_r; auto.
  all: try (match goal with
            | Hquiet : quiet _ = false |- _ => specialize (Hnq Hquiet)
            end; lia).
  all: specialize (Hnq eq_refl); lia.
Qed.

Lemma inv_prints_run en bytes n : inv_prints en (run en n (start bytes)).
Proof. apply run_invariant; [done|apply inv_prints_step]. Qed.

(** X11: with [--quiet] the process never prints "Writing to"; without
    it the line is printed once for every archive, before the archive is
    created, so that the lines are as many as the archives opened while an
    archive is open and at most one more otherwise.  Without [--verbose]
    no reading is printed; but [--quiet] does not silence [--verbose]: the
    message that follows the append prints the reading when [--verbose]
    is set, also under [--quiet]. *)
Theorem quiet_and_verbose en bytes n :
  let s := run en n (start bytes) in
  (quiet en = true -> forall p, ~ In (PrintWriting p) (log s))
  /\ (quiet en = false ->
      (count_opened (log s) <= length (List.filter is_writing (log s))
       <= S (count_opened (log s)))%nat
      /\ (forall cp path l, at_pc s = PLoop cp path l ->
             length (List.filter is_writing (log s)) = count_opened (log s)))
  /\ (verbose en = false -> forall m, ~ In (PrintReading m) (log s))
  /\ (verbose en = true -> forall cp path m,
        at_pc s = PLoop cp path (LPrint m) -> sigint en (ops s) = false ->
        log (step en s) = log s ++ [PrintReading m]).
Proof.
  intros s. destruct (inv_prints_run en bytes n) as (Hq & Hnq & Hv).
  fold s in Hq, Hnq, Hv. split; [|split; [|split]].
  - intros Hquiet p Hin. specialize (Hq Hquiet).
    rewrite forallb_forall in Hq. by specialize (Hq _ Hin).
  - intros Hquiet. specialize (Hnq Hquiet). split.
    + destruct (at_pc s); lia.
    + intros cp path l Hpc. by rewrite Hpc in Hnq.
  - intros Hverbose m Hin. specialize (Hv Hverbose).
    rewrite forallb_forall in Hv. by specialize (Hv _ Hin).
  - intros Hverbose cp path m Hpc Hsig.
    destruct s as [p b t o fsys lg]. simpl in Hpc. subst p.
    cbn [ops] in Hsig. rewrite step_print by done. cbn [log].
    by rewrite Hverbose.
Qed.

Lemma quiet_and_verbose_witness :
  quiet quiet_verbose_env = true
  /\ verbose quiet_verbose_env = true
  /\ (forall p, ~ In (PrintWriting p)
                  (log (run quiet_verbose_env 14 (start sample_input))))
  /\ exists m, In (PrintReading m)
                 (log (run quiet_verbose_env 14 (start sample_input))).
Proof.
  split; [reflexivity|]. split; [reflexivity|]. split.
  - exact (proj1 (quiet_and_verbose quiet_verbose_env sample_input 14) eq_refl).
  - eexists. vm_compute. right. left. reflexivity.
Defined.

(** An interrupt between the message and the creation of the archive, and
    one between the append and the message. *)
Example message_without_archive :
  log (run {| home := home sample_env; quiet := false; verbose := true;
              byte_order := LittleEndian; pydantic := sample_coercions;
              port_end := Blocks; clock := clock sample_env;
              sigint := fun n => (n =? 5)%nat |} 6 (start sample_input))
  = [PrintWriting
       "/home/pi/.garden/metrics/pots/humidity/2024-05-01/12-34-25.zip"]
  /\ fs (run {| home := home sample_env; quiet := false; verbose := true;
                byte_order := LittleEndian; pydantic := sample_coercions;
                port_end := Blocks; clock := clock sample_env;
                sigint := fun n => (n =? 5)%nat |} 6 (start sample_input))
     = ∅
  /\ map length
       (map (fun kv => rows (snd kv))
          (map_to_list
             (fs (run {| home := home sample_env; quiet := false;
                         verbose := true; byte_order := LittleEndian;
                         pydantic := sample_coercions; port_end := Blocks;
                         clock := clock sample_env;
                         sigint := fun n => (n =? 13)%nat |} 14
                    (start sample_input)))))
     = [2%nat]
  /\ List.filter is_reading
       (log (run {| home := home sample_env; quiet := false; verbose := true;
                    byte_order := LittleEndian; pydantic := sample_coercions;
                    port_end := Blocks; clock := clock sample_env;
                    sigint := fun n => (n =? 13)%nat |} 14
               (start sample_input)))
     = [].
Proof. repeat split; vm_compute; reflexivity. Qed.

Lemma unprinted_step en s :
  unprinted (step en s) = step (silent en) (unprinted s).
Proof.
  unfold step. cbn [unprinted at_pc ops silent sigint].
  destruct (at_pc s)
    as [| | |cp|cp path|cp path|cp path|cp path
        |cp path [| |raw|data|m|m]| |ex] eqn:Hpc;
    cbn [terminal]; try done.
  all: destruct (sigint en (ops s)) eqn:Hsig.
  all: unfold interrupt, exec; cbn [unprinted at_pc count_op]; rewrite ?Hpc.
  all: unfold inner_except, raise_in_archive, outer_except, leave, utcnow,
         unprinted.
  all: cbn [silent quiet verbose port_end byte_order pydantic clock home
            at_pc port ticks ops fs log set_pc set_port set_fs emit count_op].
  all: rewrite ?writeheader_columns, ?writerow_reading,
         ?record_kwargs_no_timestamp.
  all: repeat case_match; raised_exn.
  all: cbn [at_pc port ticks ops fs log set_pc set_port set_fs emit count_op].
  all: rewrite ?List.filter_app; cbn [List.filter is_print negb];
         rewrite ?app_nil_r.
  all: try done.
Qed.

(** X12: the flags [--quiet] and [--verbose] change nothing but the
    messages: the run reads the same bytes, is at the same operation and
    writes the same archives, opened and closed in the same order, as the
    silent run. *)
Theorem flags_only_change_messages en bytes n :
  unprinted (run en n (start bytes)) = run (silent en) n (start bytes)
  /\ fs (run en n (start bytes)) = fs (run (silent en) n (start bytes))
  /\ at_pc (run en n (start bytes)) = at_pc (run (silent en) n (start bytes))
  /\ port (run en n (start bytes)) = port (run (silent en) n (start bytes)).
Proof.
  assert (Hrun : unprinted (run en n (start bytes))
                 = run (silent en) n (start bytes)).
  { induction n as [|n IH]; [done|].
    by rewrite !run_succ, unprinted_step, IH. }
  split; [done|]. rewrite <- Hrun. done.
Qed.

(** ** Frames *)

Lemma inv_presync_step en s : inv_presync s -> inv_presync (step en s).
Proof. unfold inv_presync. intros Hs. by break_step en s. Qed.

Lemma inv_presync_run en bytes n : inv_presync (run en n (start bytes)).
Proof. apply run_invariant; [done|apply inv_presync_step]. Qed.

Lemma fs_rows_create P path (m : filesystem) :
  fs_rows P m -> fs_rows P (archive_create path m).
Proof.
  intros Hm p a. unfold archive_create. rewrite lookup_insert.
  case_decide as E; [|apply Hm]. intros [= <-]. constructor.
Qed.

Lemma archive_create_rows path (m : filesystem) a :
  archive_create path m !! path = Some a -> rows a = [].
Proof.
  unfold archive_create. rewrite lookup_insert.
  case_decide as E; [|done]. by intros [= <-].
Qed.

Lemma fs_rows_header P path (m : filesystem) :
  (forall a, m !! path = Some a -> rows a = []) ->
  fs_rows P m -> fs_rows P (archive_append path header_row m).
Proof.
  intros Hempty Hm p a. unfold archive_append. rewrite lookup_alter.
  case_decide as E; [|apply Hm]. subst p.
  destruct (m !! path) as [a0|] eqn:Hp; simpl; [|done].
  intros [= <-]. simpl. rewrite (Hempty a0 eq_refl). constructor.
Qed.

Lemma fs_rows_append (P : list cell -> Prop) path row (m : filesystem) :
  P row -> fs_rows P m -> fs_rows P (archive_append path row m).
Proof.
  intros Hrow Hm p a. unfold archive_append. rewrite lookup_alter.
  case_decide as E; [|apply Hm]. subst p.
  destruct (m !! path) as [a0|] eqn:Hp; simpl; [|done].
  intros [= <-]. simpl. specialize (Hm path a0 Hp).
  destruct (rows a0) as [|h tl]; simpl in *; [constructor|].
  apply Forall_app. split; [done|]. by constructor.
Qed.

Lemma fs_rows_close P path (m : filesystem) :
  fs_rows P m -> fs_rows P (archive_close path m).
Proof.
  intros Hm p a. unfold archive_close. rewrite lookup_alter.
  case_decide as E; [|apply Hm]. subst p.
  destruct (m !! path) as [a0|] eqn:Hp; simpl; [|done].
  intros [= <-]. simpl. by apply (Hm path a0).
Qed.

Lemma frame_next (payload : list byte) k :
  take record_size (drop (record_size * k) payload) = frame payload k
  /\ drop record_size (drop (record_size * k) payload)
     = drop (record_size * S k) payload.
Proof.
  split; [done|]. rewrite drop_drop. f_equal. lia.
Qed.

Lemma unpack_frame_reading en now (raw : list byte) data :
  unpack (byte_order en) record_format raw = Ok data ->
  length raw = record_size
  /\ SoilHumidity_init (pydantic en) now (record_kwargs data)
     = Ok (reading_of (byte_order en) now raw).
Proof.
  intros Hun.
  assert (Hlen : length raw = record_size).
  { unfold unpack in Hun.
    destruct (length raw =? calcsize record_format)%nat eqn:E; [|done].
    by apply Nat.eqb_eq in E. }
  split; [done|]. rewrite unpack_record in Hun by done.
  by injection Hun as <-.
Qed.

Lemma inv_frames_step en payload s :
  inv_frames en payload s -> inv_frames en payload (step en s).
Proof.
  unfold inv_frames. intros ([k Hport] & Hpc' & Hfs).
  destruct s as [p b t o m lg]. cbn [at_pc port fs] in *. subst b.
  unfold step. cbn [at_pc ops].
  destruct p
    as [| | |cp|cp path|cp path|cp path|cp path
        |cp path [| |raw|data|r|r]| |ex]; cbn [terminal];
    try done.
  all: destruct (sigint en o).
  all: unfold interrupt, exec; cbn [at_pc count_op].
  all: unfold inner_except, raise_in_archive, outer_except, leave, utcnow.
  all: rewrite ?writeheader_columns, ?writerow_reading,
         ?record_kwargs_no_timestamp.
  all: state_fields.
  all: unfold set_pc, set_fs, emit; state_fields.
  all: try (split; [by exists k|]; split;
            [done|by repeat first [apply fs_rows_close|apply fs_rows_create
                                  |apply fs_rows_header]]).
  all: try (split; [by exists k|]; split;
            [apply archive_create_rows|by apply fs_rows_create]).
  - (* the message of the opening *)
    destruct (quiet en); state_fields.
    all: split; [by exists k|]; split; done.
  - (* the test of the loop *)
    destruct (Datetime.ltb _ _); unfold set_pc, set_fs, emit; state_fields.
    + split; [by exists k|]. done.
    + split; [by exists k|]. split; [done|]. by apply fs_rows_close.
  - (* the read *)
    unfold port_read.
    destruct (record_size <=? length (drop (record_size * k) payload))%nat
      eqn:Hle.
    + unfold set_pc, set_port. state_fields.
      destruct (frame_next payload k) as [Hf Hd]. rewrite Hd.
      split; [by exists (S k)|]. split; [by exists k|done].
    + apply Nat.leb_gt in Hle. destruct (port_end en); state_fields.
      * split; [by exists k|]. done.
      * split; [by exists k|]. split; [done|]. by apply fs_rows_close.
      * unfold set_pc, set_port. state_fields.
        split; [|split; [|done]].
        -- exists (S k). destruct (frame_next payload k) as [_ <-].
           by rewrite drop_ge by lia.
        -- exists k. unfold frame. by rewrite take_ge by lia.
  - (* the unpacking *)
    destruct Hpc' as [j ->].
    destruct (unpack _ _ _) as [data|ex] eqn:Hun; state_fields.
    + split; [by exists k|]. split; [by exists j|done].
    + apply unpack_raises in Hun. subst ex. state_fields.
      split; [by exists k|]. split; [done|]. by apply fs_rows_close.
  - (* the construction of the reading *)
    destruct Hpc' as [j Hun].
    destruct (unpack_frame_reading en
                (Datetime.of_timestamp (clock en t)) _ _ Hun) as [Hlen ->].
    state_fields. split; [by exists k|]. split; [|done].
    by exists j, t.
  - (* the append *)
    destruct Hpc' as (j & i & Hlen & ->).
    split; [by exists k|]. split; [done|].
    apply fs_rows_append; [|done]. by exists j, i.
  - (* the message *)
    destruct (verbose en); state_fields.
    all: split; [by exists k|]; split; done.
Qed.

(** X13: once the synchronizer has left [payload] on the port, the port
    is consumed in blocks of 28 bytes counted from the start of [payload],
    and every data row of every archive is the decoding of one of these
    blocks, whole: no row is built from a partial or a shifted record. *)
Theorem rows_from_whole_frames en bytes n0 n :
  at_pc (run en n0 (start bytes)) = PInit ->
  let payload := port (run en n0 (start bytes)) in
  let s := run en (n0 + n) (start bytes) in
  (exists k, port s = drop (record_size * k) payload)
  /\ (forall p a row,
        fs s !! p = Some a -> In row (tail (rows a)) ->
        exists j i,
          length (frame payload j) = record_size
          /\ row = reading_row (byte_order en)
                     (Datetime.of_timestamp (clock en i)) (frame payload j)).
Proof.
  intros Hinit payload s.
  assert (Hinv : inv_frames en payload s).
  { unfold s. rewrite run_add. apply run_invariant; [|apply inv_frames_step].
    unfold inv_frames. rewrite Hinit. split; [|split; [done|]].
    - exists 0%nat. by rewrite Nat.mul_0_r.
    - pose proof (inv_presync_run en bytes n0) as Hpre.
      unfold inv_presync in Hpre. rewrite Hinit in Hpre. rewrite Hpre.
      intros p a Hp. by rewrite lookup_empty in Hp. }
  destruct Hinv as (Hport & _ & Hfs). split; [done|].
  intros p a row Hp Hin. specialize (Hfs p a Hp).
  rewrite List.Forall_forall in Hfs. by apply Hfs.
Qed.

Lemma rows_from_whole_frames_witness :
  at_pc (run sample_env 2 (start sample_input)) = PInit
  /\ exists k,
       port (run sample_env (2 + 12) (start sample_input))
       = drop (record_size * k) (port (run sample_env 2 (start sample_input))).
Proof.
  assert (Hinit : at_pc (run sample_env 2 (start sample_input)) = PInit)
    by (vm_compute; reflexivity).
  split; [exact Hinit|].
  exact (proj1 (rows_from_whole_frames sample_env sample_input 2 12 Hinit)).
Defined.

(** ** The layout of the archives *)

Lemma lookup_alter_Some (g : archive -> archive) path (m : filesystem) p a :
  alter g path m !! p = Some a -> exists a0, m !! p = Some a0.
Proof.
  rewrite lookup_alter. case_decide as E; [subst p|eauto].
  destruct (m !! path) as [a0|]; [eauto|done].
Qed.

Lemma inv_paths_step en s : inv_paths en s -> inv_paths en (step en s).
Proof.
  unfold inv_paths. intros [Hpc' Hs]. break_step en s; raised_exn.
  all: try done.
  all: split; [try done; try (by exists (ticks s))|].
  all: intros p a Hp.
  all: unfold archive_close, archive_append, archive_create in Hp.
  all: repeat match type of Hp with
              | alter _ _ _ !! _ = Some _ =>
                  apply lookup_alter_Some in Hp as [? Hp]
              end.
  all: try (by apply (Hs p _ Hp)).
  all: rewrite lookup_insert in Hp; case_decide as E;
    [subst p; done|by apply (Hs p _ Hp)].
Qed.

Lemma inv_paths_run en bytes n p a :
  fs (run en n (start bytes)) !! p = Some a -> exists i, p = path_at en i.
Proof.
  revert p a.
  assert (Hinv : inv_paths en (run en n (start bytes))).
  { apply run_invariant; [|apply inv_paths_step].
    split; [done|]. intros p a Hp. unfold start in Hp. cbn [fs] in Hp.
    by rewrite lookup_empty in Hp. }
  apply Hinv.
Qed.

Lemma strftime_path_length d : String.length (Datetime.strftime_path d) = 19%nat.
Proof.
  unfold Datetime.strftime_path.
  by destruct (Datetime.ord2ymd (Datetime.ordinal d)) as [[y m] dd].
Qed.

(** X14: every archive the run writes is stored under
    [<home>/.garden/metrics/pots/humidity/], in a file named by the 19
    characters of the date and time of one reading of the clock, followed
    by [.zip]. *)
Theorem archive_paths_layout en bytes n p a :
  fs (run en n (start bytes)) !! p = Some a ->
  exists i,
    p = home en +:+ "/.garden/metrics/pots/humidity/"
          +:+ Datetime.strftime_path (Datetime.of_timestamp (clock en i))
          +:+ ".zip"
    /\ String.length
         (Datetime.strftime_path (Datetime.of_timestamp (clock en i)))
       = 19%nat.
Proof.
  intros Hp. destruct (inv_paths_run en bytes n p a Hp) as [i ->].
  exists i. split; [done|apply strftime_path_length].
Qed.

Lemma archive_paths_layout_witness :
  exists i,
    "/home/pi/.garden/metrics/pots/humidity/2024-05-01/12-34-25.zip"
    = home sample_env +:+ "/.garden/metrics/pots/humidity/"
        +:+ Datetime.strftime_path (Datetime.of_timestamp (clock sample_env i))
        +:+ ".zip".
Proof.
  assert (Hp : fs (run sample_env 10 (start sample_input))
                 !! "/home/pi/.garden/metrics/pots/humidity/2024-05-01/12-34-25.zip"
               = Some {| rows := [header_row]; finalized := false |})
    by (vm_compute; reflexivity).
  destruct (archive_paths_layout sample_env sample_input 10 _ _ Hp)
    as (i & Hi & _).
  exists i. exact Hi.
Defined.
